(** * LemonyUtils: the schema-driven SQLite data layer

    A shallow embedding of [sqlitemplate.py] (the blocking variant, module
    [Sync]) and [async_sqlitemplate.py] (the cooperative variant, module
    [Async]), with the statements they build, the key validation they run and
    the effects they have on a storage engine; and of the decorators of
    [custom_decorators.py] that run in one thread (module [Decorators]).

    Python values are the inductive [pyval]; a [dict] is an association list
    kept in insertion order (the code relies on that order when it renders
    column lists and result records); sets of keys are [gset string]. *)

From Stdlib Require Import Ascii String ZArith List Bool Lia PrimFloat.
From stdpp Require Import base gmap sets list strings pretty.

Local Open Scope Z_scope.

(** ** Python values and types *)

(** The type objects a schema may name.  [TNone] is the [None] key of
    [_TYPE_TO_SQLITE_TYPE_MAP]; [Tother] stands for any other class, written
    with its name. *)
Inductive pytype : Type :=
| Tstr
| Tint
| Tfloat
| Tbytes
| TNone
| Tother (name : string).

#[global] Instance pytype_eq_dec : EqDecision pytype.
Proof. solve_decision. Defined.

(** The values a record may hold.  Values of type [float] are not part of the
    model: their text and their comparison rest on IEEE-754 arithmetic. *)
Inductive pyval : Type :=
| PStr (s : string)
| PInt (z : Z)
| PBytes (b : string)
| PNone.

#[global] Instance pyval_eq_dec : EqDecision pyval.
Proof. solve_decision. Defined.

(** ** Strings *)

Definition NL : string := String (ascii_of_nat 10) "".

(** [sep.join(l)] *)
Definition join (sep : string) (l : list string) : string := String.concat sep l.

(** [s.lower()], on the ASCII letters.  Strings are byte strings here; no
    character outside ASCII lowers to a letter of [id] or [_fuzzy_match_], so
    the comparisons with the reserved names come out as in Python. *)
Definition lower_ascii (c : ascii) : ascii :=
  let n := nat_of_ascii c in
  if (65 <=? n)%nat && (n <=? 90)%nat then ascii_of_nat (n + 32) else c.

Fixpoint lower (s : string) : string :=
  match s with
  | EmptyString => EmptyString
  | String c s' => String (lower_ascii c) (lower s')
  end.

(** [s.rstrip(chars)]: the trailing characters that occur in [chars] are
    removed. *)
Definition in_chars (chars : string) (c : ascii) : bool :=
  bool_decide (c ∈ list_ascii_of_string chars).

Fixpoint rstrip_list (chars : string) (l : list ascii) : list ascii :=
  match l with
  | [] => []
  | c :: l' =>
      match rstrip_list chars l' with
      | [] => if in_chars chars c then [] else [c]
      | r => c :: r
      end
  end.

Definition rstrip (chars : string) (s : string) : string :=
  string_of_list_ascii (rstrip_list chars (list_ascii_of_string s)).

(** [str(v)], as an f-string renders [{v}]. *)
Definition hex_digit (n : nat) : ascii :=
  if (n <? 10)%nat then ascii_of_nat (48 + n) else ascii_of_nat (87 + n).

Definition bytes_escape (quote : ascii) (c : ascii) : string :=
  let n := nat_of_ascii c in
  if bool_decide (c = quote) || bool_decide (c = "\"%char)
  then String "\"%char (String c "")
  else if (n =? 9)%nat then "\t"
  else if (n =? 10)%nat then "\n"
  else if (n =? 13)%nat then "\r"
  else if (n <? 32)%nat || (127 <=? n)%nat
  then String "\"%char (String "x"%char
         (String (hex_digit (n / 16)) (String (hex_digit (n mod 16)) "")))
  else String c "".

Definition bytes_repr (b : string) : string :=
  let l := list_ascii_of_string b in
  let quote :=
    if bool_decide ("'"%char ∈ l) && negb (bool_decide ("034"%char ∈ l))
    then "034"%char else "'"%char in
  String "b"%char (String quote
    (String.concat "" (map (bytes_escape quote) l) +:+ String quote "")).

Definition py_str (v : pyval) : string :=
  match v with
  | PStr s => s
  | PInt z => pretty z
  | PBytes b => bytes_repr b
  | PNone => "None"
  end.

(** ** Dictionaries

    A [dict] keeps its items in insertion order; assigning to a key that is
    present keeps the key's place. *)
Abbreviation dict V := (list (string * V)).

Definition dict_keys {V} (d : dict V) : list string := map fst d.

Fixpoint dict_get {V} (d : dict V) (k : string) : option V :=
  match d with
  | [] => None
  | (k', v) :: d' => if String.eqb k' k then Some v else dict_get d' k
  end.

Fixpoint dict_set {V} (d : dict V) (k : string) (v : V) : dict V :=
  match d with
  | [] => [(k, v)]
  | (k', v') :: d' =>
      if String.eqb k' k then (k', v) :: d' else (k', v') :: dict_set d' k v
  end.

(** [d.update(other)] *)
Definition dict_update {V} (d other : dict V) : dict V :=
  fold_left (fun acc kv => dict_set acc (fst kv) (snd kv)) other d.


(** ** Exceptions and outcomes *)

Inductive sqlite_error : Type :=
| OperationalError (msg : string)
| IntegrityError (msg : string)
| ProgrammingError (msg : string).

Inductive exn : Type :=
| NameError (msg : string)
| ValueError (msg : string)
| KeysValidationFailure (msg : string)
| KeyError (key : string)
| IndexError
| StorageError (e : sqlite_error).

Inductive outcome (A : Type) : Type :=
| Ok (a : A)
| Raise (e : exn).
Arguments Ok {A} a.
Arguments Raise {A} e.

Definition obind {A B} (x : outcome A) (f : A -> outcome B) : outcome B :=
  match x with
  | Ok a => f a
  | Raise e => Raise e
  end.

(** ** The type mapper and the row definition (the same in both files) *)

Definition _TYPE_TO_SQLITE_TYPE_MAP : list (pytype * string) :=
  [ (Tstr, "TEXT"); (Tint, "INTEGER"); (Tfloat, "REAL"); (Tbytes, "BLOB");
    (TNone, "NULL") ].

Fixpoint assoc_get {K V} `{EqDecision K} (m : list (K * V)) (k : K) : option V :=
  match m with
  | [] => None
  | (k', v) :: m' => if decide (k' = k) then Some v else assoc_get m' k
  end.

Definition type_to_sqlitetype (t : pytype) : option string :=
  assoc_get _TYPE_TO_SQLITE_TYPE_MAP t.

(** An optional string inside an f-string. *)
Definition fmt_opt (o : option string) : string :=
  match o with
  | Some s => s
  | None => "None"
  end.

Record _RowDef : Type := mk_RowDef {
  name : string;
  type : pytype;
  unique : bool;
  nullable : bool
}.

(** [_RowDef(name=n, type=t)]: the dataclass defaults. *)
Definition RowDef_default (n : string) (t : pytype) : _RowDef :=
  mk_RowDef n t false false.

Definition RowDef_as_dict (rd : _RowDef) : dict pytype := [(name rd, type rd)].

(** A [TableDef] is a list of row definitions. *)
Abbreviation TableDef := (list _RowDef).

(** What a caller may pass as [cdef]: a mapping, an iterable (whose elements
    are row definitions or objects of another class, given by the text of
    their [type()]), or an object that is neither. *)
Inductive pyelem : Type :=
| ERowDef (rd : _RowDef)
| EOther (type_repr : string).

Inductive cdef : Type :=
| CMapping (m : dict pytype)
| CIterable (l : list pyelem)
| CScalar.

Definition TableDef_as_dict (td : TableDef) : dict pytype :=
  fold_left (fun result r => dict_update result (RowDef_as_dict r)) td [].

(** ** The storage engine *)

(** Modelled from the spec: the storage engine (sqlite3 and aiosqlite), which
    is no part of the repository; the code only consumes it through
    [execute], [fetchall] and [lastrowid].  A database file maps table names
    to tables; a statement is the text and the bound parameters the code
    passes to [execute].  The engine reads the text (a lexer and a parser for
    the statement shapes this code issues; any other text is a syntax
    error), enforces NOT NULL and UNIQUE, assigns the AUTOINCREMENT id, and
    stores a bound value as it is (no conversion between storage classes). *)
Module Engine.

Record column : Type := mk_column {
  c_name : string;
  c_type : string;
  c_unique : bool;
  c_notnull : bool;
  c_rowid : bool
}.

(** A row holds one cell per column, in column order. *)
Record table : Type := mk_table {
  t_cols : list column;
  t_rows : list (list pyval);
  t_seq : Z
}.

Record cursor : Type := mk_cursor {
  lastrowid : option Z;
  fetchall : list (list pyval)
}.

(** *** Lexer *)

Inductive token : Type :=
| TWord (w : string)
| TSym (c : ascii).

#[global] Instance token_eq_dec : EqDecision token.
Proof. solve_decision. Defined.

Definition is_sym (c : ascii) : bool :=
  match c with
  | "("%char | ")"%char | ","%char | "="%char | "?"%char | "*"%char => true
  | _ => false
  end.

Definition flush (acc : list ascii) : list token :=
  match acc with
  | [] => []
  | _ => [TWord (string_of_list_ascii acc)]
  end.

Fixpoint lex (acc : list ascii) (s : list ascii) : list token :=
  match s with
  | [] => flush acc
  | c :: s' =>
      if Ascii.is_space c then flush acc ++ lex [] s'
      else if is_sym c then flush acc ++ TSym c :: lex [] s'
      else lex (acc ++ [c]) s'
  end.

Definition tokens (sql : string) : list token := lex [] (list_ascii_of_string sql).

(** *** Identifiers *)

Definition upper_ascii (c : ascii) : ascii :=
  let n := nat_of_ascii c in
  if (97 <=? n)%nat && (n <=? 122)%nat then ascii_of_nat (n - 32) else c.

Definition upper (s : string) : string :=
  string_of_list_ascii (map upper_ascii (list_ascii_of_string s)).

Definition keywords : list string :=
  [ "CREATE"; "TABLE"; "IF"; "NOT"; "EXISTS"; "UNIQUE"; "NULL"; "PRIMARY";
    "KEY"; "AUTOINCREMENT"; "INSERT"; "INTO"; "VALUES"; "DELETE"; "FROM";
    "WHERE"; "UPDATE"; "SET"; "SELECT"; "AND"; "LIKE"; "VACUUM" ].

Definition is_digit (c : ascii) : bool :=
  let n := nat_of_ascii c in (48 <=? n)%nat && (n <=? 57)%nat.

Definition is_ident_char (c : ascii) : bool :=
  let n := nat_of_ascii c in
  is_digit c
  || ((65 <=? n)%nat && (n <=? 90)%nat)
  || ((97 <=? n)%nat && (n <=? 122)%nat)
  || (n =? 95)%nat
  || (128 <=? n)%nat.

(** A name: letters, digits and underscores, not starting with a digit, and
    no keyword of the statements below. *)
Definition is_ident (w : string) : bool :=
  match list_ascii_of_string w with
  | [] => false
  | c :: l =>
      negb (is_digit c) && forallb is_ident_char (c :: l)
      && negb (bool_decide (upper w ∈ keywords))
  end.

(** *** Statements *)

Inductive cond : Type :=
| CEq (col : string)
| CLike (col : string).

Inductive stmt : Type :=
| SCreate (t : string) (cols : list column)
| SInsert (t : string) (cols : list string) (nvalues : nat)
| SDelete (t : string) (w : list cond)
| SUpdate (t : string) (sets : list string) (w : list cond)
| SSelect (t : string) (w : list cond)
| SVacuum.

(** *** Parser *)

(** [name, name, ...] up to the closing parenthesis. *)
Fixpoint parse_names (ts : list token) : option (list string * list token) :=
  match ts with
  | TWord w :: TSym c :: rest =>
      if is_ident w then
        if bool_decide (c = ","%char) then
          match parse_names rest with
          | Some (ws, rest') => Some (w :: ws, rest')
          | None => None
          end
        else if bool_decide (c = ")"%char) then Some ([w], rest)
        else None
      else None
  | _ => None
  end.

(** [?, ?, ...] up to the closing parenthesis. *)
Fixpoint parse_marks (ts : list token) : option (nat * list token) :=
  match ts with
  | TSym m :: TSym c :: rest =>
      if bool_decide (m = "?"%char) then
        if bool_decide (c = ","%char) then
          match parse_marks rest with
          | Some (n, rest') => Some (S n, rest')
          | None => None
          end
        else if bool_decide (c = ")"%char) then Some (1%nat, rest)
        else None
      else None
  | _ => None
  end.

(** [name = ? AND name LIKE ? AND ...] up to the end of the statement. *)
Fixpoint parse_conds (ts : list token) : option (list cond) :=
  match ts with
  | TWord w :: TSym e :: TSym m :: rest =>
      if is_ident w && bool_decide (e = "="%char) && bool_decide (m = "?"%char)
      then
        match rest with
        | [] => Some [CEq w]
        | TWord k :: rest' =>
            if bool_decide (k = "AND") then
              match parse_conds rest' with
              | Some cs => Some (CEq w :: cs)
              | None => None
              end
            else None
        | _ => None
        end
      else None
  | TWord w :: TWord l :: TSym m :: rest =>
      if is_ident w && bool_decide (l = "LIKE") && bool_decide (m = "?"%char)
      then
        match rest with
        | [] => Some [CLike w]
        | TWord k :: rest' =>
            if bool_decide (k = "AND") then
              match parse_conds rest' with
              | Some cs => Some (CLike w :: cs)
              | None => None
              end
            else None
        | _ => None
        end
      else None
  | _ => None
  end.

(** [name = ?, name = ?, ...] up to [WHERE]. *)
Fixpoint parse_sets (ts : list token) : option (list string * list token) :=
  match ts with
  | TWord w :: TSym e :: TSym m :: TSym c :: rest =>
      if is_ident w && bool_decide (e = "="%char) && bool_decide (m = "?"%char)
         && bool_decide (c = ","%char)
      then
        match parse_sets rest with
        | Some (ws, rest') => Some (w :: ws, rest')
        | None => None
        end
      else None
  | TWord w :: TSym e :: TSym m :: TWord k :: rest =>
      if is_ident w && bool_decide (e = "="%char) && bool_decide (m = "?"%char)
         && bool_decide (k = "WHERE")
      then Some ([w], rest) else None
  | _ => None
  end.

(** [name type constraints, ...] up to the closing parenthesis, which ends
    the statement.  [cur] is the column being read, if one is open. *)
Fixpoint parse_columns (cur : option column) (ts : list token)
  : option (list column) :=
  match cur, ts with
  | None, TWord n :: TWord ty :: rest =>
      if is_ident n && is_ident ty
      then parse_columns (Some (mk_column n ty false false false)) rest
      else None
  | Some col, TWord k :: rest =>
      if bool_decide (k = "UNIQUE") then
        parse_columns
          (Some (mk_column (c_name col) (c_type col) true (c_notnull col)
                   (c_rowid col))) rest
      else
        match rest with
        | TWord k2 :: rest2 =>
            if bool_decide (k = "NOT") && bool_decide (k2 = "NULL") then
              parse_columns
                (Some (mk_column (c_name col) (c_type col) (c_unique col) true
                         (c_rowid col))) rest2
            else
              match rest2 with
              | TWord k3 :: rest3 =>
                  if bool_decide (k = "PRIMARY") && bool_decide (k2 = "KEY")
                     && bool_decide (k3 = "AUTOINCREMENT")
                     && bool_decide (c_type col = "INTEGER")
                  then
                    parse_columns
                      (Some (mk_column (c_name col) (c_type col) (c_unique col)
                               (c_notnull col) true)) rest3
                  else None
              | _ => None
              end
        | _ => None
        end
  | Some col, TSym c :: rest =>
      if bool_decide (c = ","%char) then
        match parse_columns None rest with
        | Some cols => Some (col :: cols)
        | None => None
        end
      else if bool_decide (c = ")"%char) then
        match rest with
        | [] => Some [col]
        | _ => None
        end
      else None
  | _, _ => None
  end.

Definition parse (ts : list token) : option stmt :=
  match ts with
  | [TWord "VACUUM"] => Some SVacuum
  | TWord "CREATE" :: TWord "TABLE" :: TWord "IF" :: TWord "NOT"
    :: TWord "EXISTS" :: TWord t :: TSym "(" :: rest =>
      if is_ident t then
        match parse_columns None rest with
        | Some cols => Some (SCreate t cols)
        | None => None
        end
      else None
  | TWord "INSERT" :: TWord "INTO" :: TWord t :: TSym "(" :: rest =>
      if is_ident t then
        match parse_names rest with
        | Some (cols, TWord "VALUES" :: TSym "(" :: rest') =>
            match parse_marks rest' with
            | Some (n, []) => Some (SInsert t cols n)
            | _ => None
            end
        | _ => None
        end
      else None
  | TWord "DELETE" :: TWord "FROM" :: TWord t :: TWord "WHERE" :: rest =>
      if is_ident t then
        match parse_conds rest with
        | Some w => Some (SDelete t w)
        | None => None
        end
      else None
  | TWord "UPDATE" :: TWord t :: TWord "SET" :: rest =>
      if is_ident t then
        match parse_sets rest with
        | Some (sets, rest') =>
            match parse_conds rest' with
            | Some w => Some (SUpdate t sets w)
            | None => None
            end
        | None => None
        end
      else None
  | TWord "SELECT" :: TSym "*" :: TWord "FROM" :: TWord t :: rest =>
      if is_ident t then
        match rest with
        | [] => Some (SSelect t [])
        | TWord "WHERE" :: rest' =>
            match parse_conds rest' with
            | Some w => Some (SSelect t w)
            | None => None
            end
        | _ => None
        end
      else None
  | _ => None
  end.

(** *** Values in predicates *)

(** [a = b] in a WHERE clause: NULL equals nothing. *)
Definition sql_eq (a b : pyval) : bool :=
  match a, b with
  | PNone, _ => false
  | _, PNone => false
  | _, _ => bool_decide (a = b)
  end.

(** [s LIKE p]: [%] stands for any run of characters, [_] for any one
    character, and ASCII letters match whatever their case. *)
Fixpoint like (p : list ascii) : list ascii -> bool :=
  match p with
  | [] => fun s => match s with [] => true | _ => false end
  | c :: p' =>
      if bool_decide (c = "%"%char) then
        fix star (s : list ascii) : bool :=
          like p' s || match s with [] => false | _ :: s' => star s' end
      else if bool_decide (c = "_"%char) then
        fun s => match s with [] => false | _ :: s' => like p' s' end
      else
        fun s =>
          match s with
          | [] => false
          | d :: s' => bool_decide (upper_ascii c = upper_ascii d) && like p' s'
          end
  end.

Definition sql_text (v : pyval) : option (list ascii) :=
  match v with
  | PStr s => Some (list_ascii_of_string s)
  | PInt z => Some (list_ascii_of_string (pretty z))
  | PBytes b => Some (list_ascii_of_string b)
  | PNone => None
  end.

Definition sql_like (a p : pyval) : bool :=
  match sql_text a, sql_text p with
  | Some s, Some pat => like pat s
  | _, _ => false
  end.

(** *** Tables *)

Fixpoint col_index (cols : list column) (n : string) : option nat :=
  match cols with
  | [] => None
  | c :: cols' =>
      if String.eqb (c_name c) n then Some O
      else match col_index cols' n with
           | Some i => Some (S i)
           | None => None
           end
  end.

Definition cell_at (row : list pyval) (i : nat) : pyval := default PNone (row !! i).

Definition cell (cols : list column) (row : list pyval) (n : string) : pyval :=
  match col_index cols n with
  | Some i => cell_at row i
  | None => PNone
  end.

Definition cond_col (c : cond) : string :=
  match c with
  | CEq n => n
  | CLike n => n
  end.

Definition cond_holds (cols : list column) (row : list pyval) (c : cond) (p : pyval)
  : bool :=
  match c with
  | CEq n => sql_eq (cell cols row n) p
  | CLike n => sql_like (cell cols row n) p
  end.

(** The row satisfies every predicate of the WHERE clause, each with its own
    bound parameter. *)
Fixpoint row_matches (cols : list column) (w : list cond) (ps : list pyval)
  (row : list pyval) : bool :=
  match w, ps with
  | [], _ => true
  | c :: w', p :: ps' => cond_holds cols row c p && row_matches cols w' ps' row
  | _ :: _, [] => false
  end.

Definition known_cols (cols : list column) (ns : list string) : bool :=
  forallb (fun n => bool_decide (is_Some (col_index cols n))) ns.

(** The id of the next row: one more than the largest id ever given out. *)
Definition rowid_of (cols : list column) (row : list pyval) : option Z :=
  match list_find c_rowid cols with
  | Some (i, _) =>
      match cell_at row i with
      | PInt z => Some z
      | _ => None
      end
  | None => None
  end.

Definition new_rowid (tb : table) : Z :=
  1 + fold_right Z.max (t_seq tb) (omap (rowid_of (t_cols tb)) (t_rows tb)).

Fixpoint distinct_cells (l : list pyval) : bool :=
  match l with
  | [] => true
  | v :: l' => forallb (fun u => negb (sql_eq v u)) l' && distinct_cells l'
  end.

(** NOT NULL and UNIQUE over the whole table; the id column is an integer,
    never NULL, and unique. *)
Definition column_ok (rows : list (list pyval)) (ic : nat * column) : bool :=
  let cells := map (fun r => cell_at r (fst ic)) rows in
  let c := snd ic in
  (negb (c_notnull c || c_rowid c)
   || forallb (fun v => negb (bool_decide (v = PNone))) cells)
  && (negb (c_rowid c)
      || forallb (fun v => match v with PInt _ => true | _ => false end) cells)
  && (negb (c_unique c || c_rowid c) || distinct_cells cells).

Definition constraints_ok (cols : list column) (rows : list (list pyval)) : bool :=
  forallb (column_ok rows) (zip (seq 0 (length cols)) cols).

(** The row an INSERT writes: the bound value of each named column, the next
    id in the id column when none is bound, NULL elsewhere. *)
Definition insert_row (tb : table) (names : list string) (ps : list pyval)
  : list pyval :=
  map (fun c =>
         match dict_get (zip names ps) (c_name c) with
         | Some PNone => if c_rowid c then PInt (new_rowid tb) else PNone
         | Some v => v
         | None => if c_rowid c then PInt (new_rowid tb) else PNone
         end) (t_cols tb).

(** The row an UPDATE leaves: the bound value in each column it sets. *)
Definition update_row (cols : list column) (sets : list string) (ps : list pyval)
  (row : list pyval) : list pyval :=
  map (fun ic =>
         match dict_get (zip sets ps) (c_name (snd ic)) with
         | Some v => v
         | None => cell_at row (fst ic)
         end) (zip (seq 0 (length cols)) cols).

Definition result (A : Type) : Type := sum sqlite_error A.

Definition no_cursor : cursor := mk_cursor None [].

Definition placeholders (s : stmt) : nat :=
  match s with
  | SCreate _ _ => 0
  | SInsert _ _ n => n
  | SDelete _ w => length w
  | SUpdate _ sets w => length sets + length w
  | SSelect _ w => length w
  | SVacuum => 0
  end.

Definition with_table {A} (db : gmap string table) (t : string)
  (k : table -> result A) : result A :=
  match db !! t with
  | Some tb => k tb
  | None => inl (OperationalError ("no such table: " +:+ t))
  end.

Definition run (s : stmt) (ps : list pyval) (db : gmap string table)
  : result (cursor * gmap string table) :=
  if negb (length ps =? placeholders s)%nat
  then inl (ProgrammingError "Incorrect number of bindings supplied")
  else
  match s with
  | SCreate t cols =>
      match db !! t with
      | Some _ => inr (no_cursor, db)
      | None =>
          if bool_decide (NoDup (map (fun c => lower (c_name c)) cols))
          then inr (no_cursor, <[t := mk_table cols [] 0]> db)
          else inl (OperationalError "duplicate column name")
      end
  | SInsert t names n =>
      with_table db t (fun tb =>
        if negb (known_cols (t_cols tb) names)
        then inl (OperationalError "no such column")
        else if negb (length names =? n)%nat
        then inl (OperationalError "values do not match the columns")
        else
          let row := insert_row tb names ps in
          let rows := t_rows tb ++ [row] in
          if constraints_ok (t_cols tb) rows then
            let rid := default (new_rowid tb) (rowid_of (t_cols tb) row) in
            inr (mk_cursor (Some rid) [],
                 <[t := mk_table (t_cols tb) rows (Z.max (t_seq tb) rid)]> db)
          else inl (IntegrityError "constraint failed"))
  | SDelete t w =>
      with_table db t (fun tb =>
        if negb (known_cols (t_cols tb) (map cond_col w))
        then inl (OperationalError "no such column")
        else
          let rows := filter (fun r => row_matches (t_cols tb) w ps r = false)
                             (t_rows tb) in
          inr (no_cursor, <[t := mk_table (t_cols tb) rows (t_seq tb)]> db))
  | SUpdate t sets w =>
      with_table db t (fun tb =>
        if negb (known_cols (t_cols tb) (sets ++ map cond_col w))
        then inl (OperationalError "no such column")
        else
          let rows :=
            map (fun r =>
                   if row_matches (t_cols tb) w (drop (length sets) ps) r
                   then update_row (t_cols tb) sets ps r else r) (t_rows tb) in
          if constraints_ok (t_cols tb) rows
          then inr (no_cursor, <[t := mk_table (t_cols tb) rows (t_seq tb)]> db)
          else inl (IntegrityError "constraint failed"))
  | SSelect t w =>
      with_table db t (fun tb =>
        if negb (known_cols (t_cols tb) (map cond_col w))
        then inl (OperationalError "no such column")
        else
          inr (mk_cursor None
                 (filter (fun r => row_matches (t_cols tb) w ps r = true) (t_rows tb)),
               db))
  | SVacuum => inr (no_cursor, db)
  end.

(** [cursor.execute(sql, params)] *)
Definition execute (sql : string) (ps : list pyval) (db : gmap string table)
  : result (cursor * gmap string table) :=
  match parse (tokens sql) with
  | Some s => run s ps db
  | None => inl (OperationalError "syntax error")
  end.

End Engine.

(** ** Effects

    What a method does besides computing: it opens connections and hands
    statements to the engine.  The world holds the tables of the database
    file and the trace of these events, oldest first. *)

Inductive event : Type :=
| Connect (dbpath : string)
| Execute (sql : string) (params : list pyval).

Record world : Type := mk_world {
  disk : gmap string Engine.table;
  trace : list event
}.

(** A computation over a state [S] that returns or raises; the state
    survives an exception. *)
Definition M (S A : Type) : Type := S -> outcome A * S.

Definition ret {S A} (a : A) : M S A := fun s => (Ok a, s).

Definition raise {S A} (e : exn) : M S A := fun s => (Raise e, s).

Definition lift {S A} (o : outcome A) : M S A := fun s => (o, s).

Definition bind {S A B} (m : M S A) (f : A -> M S B) : M S B :=
  fun s =>
    match m s with
    | (Ok a, s') => f a s'
    | (Raise e, s') => (Raise e, s')
    end.

Notation "x <- m ;; k" := (bind m (fun x => k))
  (at level 100, m at next level, right associativity).
Notation "m ;;; k" := (bind m (fun _ => k))
  (at level 100, right associativity).

(** [sqlite3.connect(dbpath)] / [aiosqlite.connect(dbpath)] *)
Definition connect (dbpath : string) : M world unit :=
  fun w => (Ok tt, mk_world (disk w) (trace w ++ [Connect dbpath])).

(** [cursor.execute(sql, params)] on an open connection. *)
Definition cursor_execute (sql : string) (params : list pyval)
  : M world Engine.cursor :=
  fun w =>
    let tr := trace w ++ [Execute sql params] in
    match Engine.execute sql params (disk w) with
    | inr (cur, db) => (Ok cur, mk_world db tr)
    | inl e => (Raise (StorageError e), mk_world (disk w) tr)
    end.

(** The statements among the events. *)
Definition is_execute (e : event) : bool :=
  match e with
  | Execute _ _ => true
  | Connect _ => false
  end.

Definition statements (tr : list event) : list event := List.filter is_execute tr.

Definition sp16 : string := "                ".
Definition sp20 : string := "                    ".

(** ** sqlitemplate.py: the blocking variant *)
Module Sync.

(** [TableDef.__init__], the loop over [cdef.items()]. *)
Fixpoint TableDef_from_mapping (self : TableDef) (items : dict pytype)
  : outcome TableDef :=
  match items with
  | [] => Ok self
  | (n, t) :: rest =>
      if String.eqb (lower n) "id"
      then Raise (NameError "name `id` is reserved for inner use")
      else TableDef_from_mapping (self ++ [RowDef_default n t]) rest
  end.

(** [TableDef.__init__], the loop over an iterable [cdef]. *)
Fixpoint TableDef_from_iterable (self : TableDef) (l : list pyelem)
  : outcome TableDef :=
  match l with
  | [] => Ok self
  | ERowDef rd :: rest => TableDef_from_iterable (self ++ [rd]) rest
  | EOther ty :: _ => Raise (ValueError ("expect RowDef, got " +:+ ty))
  end.

Definition TableDef_init (c : cdef) : outcome TableDef :=
  match c with
  | CMapping m => TableDef_from_mapping [] m
  | CIterable l => TableDef_from_iterable [] l
  | CScalar => Ok []
  end.

Record _DataBase : Type := mk_DataBase {
  _tabledef : TableDef;
  _datadef : dict pytype;
  _datadef_with_id : dict pytype;
  _table_name : string;
  _dbpath : string
}.

(** [validate_keys(d, dt, fullmatch)]; [dt] is a [TableDef] or a mapping. *)
Definition validate_keys {A B} (d : dict A) (dt : TableDef + dict B)
  (fullmatch : bool) : outcome unit :=
  let dt_keys : gset string :=
    match dt with
    | inl td => list_to_set (map name td)
    | inr m => list_to_set (dict_keys m)
    end in
  let d_keys : gset string := list_to_set (dict_keys d) in
  if fullmatch then
    if bool_decide (d_keys ≠ dt_keys)
    then Raise (KeysValidationFailure "keys not equal")
    else Ok tt
  else
    let unexpected_keys := d_keys ∖ dt_keys in
    if bool_decide (unexpected_keys ≠ ∅)
    then Raise (KeysValidationFailure
                  ("unexpected keys: " +:+ join ", " (elements unexpected_keys)))
    else Ok tt.

Definition _get_connection (self : _DataBase) : M world unit :=
  connect (_dbpath self).

(** The column of one row definition in the CREATE TABLE statement. *)
Definition column_text (rd : _RowDef) : string :=
  (name rd +:+ " " +:+ fmt_opt (type_to_sqlitetype (type rd)))
  +:+ (if unique rd then " UNIQUE" else "")
  +:+ (if nullable rd then "" else " NOT NULL").

Definition create_table_sql (self : _DataBase) : string :=
  NL +:+ sp16 +:+ "CREATE TABLE IF NOT EXISTS " +:+ _table_name self +:+ " ("
  +:+ NL +:+ sp20 +:+ join ", " (map column_text (_tabledef self)) +:+ ","
  +:+ NL +:+ sp20 +:+ "id INTEGER PRIMARY KEY AUTOINCREMENT"
  +:+ NL +:+ sp16 +:+ ")"
  +:+ NL +:+ sp16.

Definition _create_table (self : _DataBase) : M world unit :=
  _get_connection self ;;;
  cursor_execute (create_table_sql self) [] ;;;
  ret tt.

(** [_DataBase.__init__] *)
Definition init_fields (dbpath : string) (tabledef : TableDef) (tablename : string)
  : _DataBase :=
  let datadef := TableDef_as_dict tabledef in
  mk_DataBase tabledef datadef (dict_set datadef "id" Tint) tablename dbpath.

Definition __init__ (dbpath : string) (tabledef : TableDef) (tablename : string)
  : M world _DataBase :=
  let self := init_fields dbpath tabledef tablename in
  _create_table self ;;;
  ret self.

(** [dbcls_factory]: the class it returns is its constructor here. *)
Definition dbcls_factory (tabledef : TableDef + cdef) (cls_name : string)
  (table_name : option string) : outcome (string -> M world _DataBase) :=
  let table_name := default cls_name table_name in
  obind (match tabledef with
         | inl td => Ok td
         | inr c => TableDef_init c
         end)
        (fun td => Ok (fun dbpath => __init__ dbpath td table_name)).

(** [item[k]] *)
Definition getitem (item : dict pyval) (k : string) : outcome pyval :=
  match dict_get item k with
  | Some v => Ok v
  | None => Raise (KeyError k)
  end.

Fixpoint getitems (item : dict pyval) (ks : list string) : outcome (list pyval) :=
  match ks with
  | [] => Ok []
  | k :: ks' =>
      obind (getitem item k) (fun v =>
      obind (getitems item ks') (fun vs => Ok (v :: vs)))
  end.

Definition add_sql (self : _DataBase) : string :=
  NL +:+ sp16 +:+ "INSERT INTO " +:+ _table_name self +:+ " ("
  +:+ join ", " (dict_keys (_datadef self)) +:+ ")"
  +:+ NL +:+ sp16 +:+ "VALUES ("
  +:+ join ", " (replicate (length (_datadef self)) "?") +:+ ")"
  +:+ NL +:+ sp16.

Definition add (self : _DataBase) (item : dict pyval) : M world (option Z) :=
  lift (validate_keys item (inr (_datadef self)) true) ;;;
  _get_connection self ;;;
  params <- lift (getitems item (dict_keys (_datadef self))) ;;
  cursor <- cursor_execute (add_sql self) params ;;
  ret (Engine.lastrowid cursor).

Definition delete_sql (self : _DataBase) : string :=
  "DELETE FROM " +:+ _table_name self +:+ " WHERE id = ?".

Definition delete (self : _DataBase) (item_id : Z) : M world unit :=
  _get_connection self ;;;
  cursor_execute (delete_sql self) [PInt item_id] ;;;
  ret tt.

(** The loop of [modify] over [info.items()]. *)
Definition modify_loop (update_query : string) (info : dict pyval)
  : string * list pyval :=
  fold_left
    (fun acc kv =>
       (fst acc +:+ fst kv +:+ " = ?, ", snd acc ++ [snd kv]))
    info (update_query, []).

Definition modify_sql (self : _DataBase) (info : dict pyval) : string :=
  rstrip ", " (fst (modify_loop ("UPDATE " +:+ _table_name self +:+ " SET ") info))
  +:+ " WHERE id = ?".

Definition modify_params (self : _DataBase) (item_id : Z) (info : dict pyval)
  : list pyval :=
  snd (modify_loop ("UPDATE " +:+ _table_name self +:+ " SET ") info)
  ++ [PInt item_id].

Definition modify (self : _DataBase) (item_id : Z) (info : dict pyval)
  : M world unit :=
  match info with
  | [] => ret tt
  | _ =>
      lift (validate_keys info (inr (_datadef self)) false) ;;;
      _get_connection self ;;;
      cursor_execute (modify_sql self info) (modify_params self item_id info) ;;;
      ret tt
  end.

(** The loop of [search] over [info.items()]. *)
Definition search_loop (self : _DataBase) (fuzzy_match : bool) (info : dict pyval)
  : list string * list pyval :=
  fold_left
    (fun acc kv =>
       if fuzzy_match
          && bool_decide (dict_get (_datadef_with_id self) (fst kv) = Some Tstr)
       then (fst acc ++ [fst kv +:+ " LIKE ?"],
             snd acc ++ [PStr ("%" +:+ py_str (snd kv) +:+ "%")])
       else (fst acc ++ [fst kv +:+ " = ?"], snd acc ++ [snd kv]))
    info ([], []).

Definition search_sql (self : _DataBase) (fuzzy_match : bool) (info : dict pyval)
  : string :=
  let query := "SELECT * FROM " +:+ _table_name self in
  match info with
  | [] => query
  | _ => (query +:+ " WHERE ")
         +:+ join " AND " (fst (search_loop self fuzzy_match info))
  end.

Definition search_params (self : _DataBase) (fuzzy_match : bool) (info : dict pyval)
  : list pyval :=
  match info with
  | [] => []
  | _ => snd (search_loop self fuzzy_match info)
  end.

(** [{k: row[i] for i, k in enumerate(keys)}] *)
Fixpoint render_row (keys : list string) (i : nat) (row : list pyval)
  : outcome (dict pyval) :=
  match keys with
  | [] => Ok []
  | k :: keys' =>
      match row !! i with
      | Some v => obind (render_row keys' (S i) row) (fun book => Ok ((k, v) :: book))
      | None => Raise IndexError
      end
  end.

Fixpoint render_rows (keys : list string) (rows : list (list pyval))
  : outcome (list (dict pyval)) :=
  match rows with
  | [] => Ok []
  | row :: rows' =>
      obind (render_row keys 0 row) (fun book =>
      obind (render_rows keys rows') (fun books => Ok (book :: books)))
  end.

Definition search (self : _DataBase) (fuzzy_match : bool) (info : dict pyval)
  : M world (list (dict pyval)) :=
  lift (validate_keys info (inr (_datadef_with_id self)) false) ;;;
  _get_connection self ;;;
  cursor <- cursor_execute (search_sql self fuzzy_match info)
                           (search_params self fuzzy_match info) ;;
  lift (render_rows (dict_keys (_datadef_with_id self)) (Engine.fetchall cursor)).

Definition vacuum (self : _DataBase) : M world unit :=
  _get_connection self ;;;
  cursor_execute "VACUUM" [] ;;;
  ret tt.

End Sync.

(** ** async_sqlitemplate.py: the cooperative variant

    A coroutine runs to its end here: what is modelled is the order of its
    effects, not the scheduling of several tasks. *)
Module Async.

Definition RESERVED_COLUMNS : gset string := {[ "id"; "_fuzzy_match_" ]}.

(** [TableDef.__init__], the loop over [cdef.items()]. *)
Fixpoint TableDef_from_mapping (self : TableDef) (items : dict pytype)
  : outcome TableDef :=
  match items with
  | [] => Ok self
  | (n, t) :: rest =>
      if bool_decide (lower n ∈ RESERVED_COLUMNS)
      then Raise (NameError ("name `" +:+ n +:+ "` is reserved for inner use"))
      else TableDef_from_mapping (self ++ [RowDef_default n t]) rest
  end.

(** [TableDef.__init__], the loop over an iterable [cdef]. *)
Fixpoint TableDef_from_iterable (self : TableDef) (l : list pyelem)
  : outcome TableDef :=
  match l with
  | [] => Ok self
  | ERowDef rd :: rest =>
      let self := self ++ [rd] in
      if bool_decide (lower (name rd) ∈ RESERVED_COLUMNS)
      then Raise (NameError ("name `" +:+ name rd +:+ "` is reserved for inner use"))
      else TableDef_from_iterable self rest
  | EOther ty :: _ => Raise (ValueError ("expect RowDef, got " +:+ ty))
  end.

Definition TableDef_init (c : cdef) : outcome TableDef :=
  match c with
  | CMapping m => TableDef_from_mapping [] m
  | CIterable l => TableDef_from_iterable [] l
  | CScalar => Ok []
  end.

Record _AsyncDataBase : Type := mk_AsyncDataBase {
  _tabledef : TableDef;
  _datadef : dict pytype;
  _datadef_with_id : dict pytype;
  _table_name : string;
  _dbpath : string
}.

(** The object's [_conn] field changes as it runs: it is part of the state,
    next to the world. *)
Record state : Type := mk_state {
  _conn : option string;
  outside : world
}.

Definition on_world {A} (m : M world A) : M state A :=
  fun s =>
    let (r, w) := m (outside s) in
    (r, mk_state (_conn s) w).

(** [_AsyncDataBase.__init__] *)
Definition __init__ (dbpath : string) (tabledef : TableDef) (tablename : string)
  : _AsyncDataBase :=
  let datadef := TableDef_as_dict tabledef in
  mk_AsyncDataBase tabledef datadef (dict_set datadef "id" Tint) tablename dbpath.

(** [validate_keys(d, dt, fullmatch)]; [dt] is a [TableDef] or a mapping. *)
Definition validate_keys {A B} (d : dict A) (dt : TableDef + dict B)
  (fullmatch : bool) : outcome unit :=
  let dt_keys : gset string :=
    match dt with
    | inl td => list_to_set (map name td)
    | inr m => list_to_set (dict_keys m)
    end in
  let d_keys : gset string := list_to_set (dict_keys d) in
  if fullmatch then
    if bool_decide (d_keys ≠ dt_keys)
    then Raise (KeysValidationFailure "keys not equal")
    else Ok tt
  else
    let unexpected_keys := d_keys ∖ dt_keys in
    if bool_decide (unexpected_keys ≠ ∅)
    then Raise (KeysValidationFailure
                  ("unexpected keys: " +:+ join ", " (elements unexpected_keys)))
    else Ok tt.

Definition _get_conn (self : _AsyncDataBase) : M state unit :=
  fun s =>
    match _conn s with
    | None =>
        let (r, w) := connect (_dbpath self) (outside s) in
        (r, mk_state (Some (_dbpath self)) w)
    | Some _ => (Ok tt, s)
    end.

Definition close (self : _AsyncDataBase) : M state unit :=
  fun s => (Ok tt, mk_state None (outside s)).

Definition _get_cursor (self : _AsyncDataBase) : M state unit :=
  _get_conn self.

Definition column_text (rd : _RowDef) : string :=
  (name rd +:+ " " +:+ fmt_opt (type_to_sqlitetype (type rd)))
  +:+ (if unique rd then " UNIQUE" else "")
  +:+ (if nullable rd then "" else " NOT NULL").

Definition create_table_sql (self : _AsyncDataBase) : string :=
  NL +:+ sp16 +:+ "CREATE TABLE IF NOT EXISTS " +:+ _table_name self +:+ " ("
  +:+ NL +:+ sp20 +:+ join ", " (map column_text (_tabledef self)) +:+ ","
  +:+ NL +:+ sp20 +:+ "id INTEGER PRIMARY KEY AUTOINCREMENT"
  +:+ NL +:+ sp16 +:+ ")"
  +:+ NL +:+ sp16.

Definition create_table (self : _AsyncDataBase) : M state unit :=
  _get_cursor self ;;;
  on_world (cursor_execute (create_table_sql self) []) ;;;
  ret tt.

Definition __aenter__ (self : _AsyncDataBase) : M state _AsyncDataBase :=
  create_table self ;;;
  ret self.

Definition __aexit__ (self : _AsyncDataBase) : M state unit :=
  close self.

(** [dbcls_factory]: the class it returns is its constructor here. *)
Definition dbcls_factory (tabledef : TableDef + cdef) (cls_name : string)
  (table_name : option string) : outcome (string -> _AsyncDataBase) :=
  let table_name := default cls_name table_name in
  obind (match tabledef with
         | inl td => Ok td
         | inr c => TableDef_init c
         end)
        (fun td => Ok (fun dbpath => __init__ dbpath td table_name)).

(** [item[k]] *)
Definition getitem (item : dict pyval) (k : string) : outcome pyval :=
  match dict_get item k with
  | Some v => Ok v
  | None => Raise (KeyError k)
  end.

Fixpoint getitems (item : dict pyval) (ks : list string) : outcome (list pyval) :=
  match ks with
  | [] => Ok []
  | k :: ks' =>
      obind (getitem item k) (fun v =>
      obind (getitems item ks') (fun vs => Ok (v :: vs)))
  end.

Definition add_sql (self : _AsyncDataBase) : string :=
  NL +:+ sp16 +:+ "INSERT INTO " +:+ _table_name self +:+ " ("
  +:+ join ", " (dict_keys (_datadef self)) +:+ ")"
  +:+ NL +:+ sp16 +:+ "VALUES ("
  +:+ join ", " (replicate (length (_datadef self)) "?") +:+ ")"
  +:+ NL +:+ sp16.

Definition add (self : _AsyncDataBase) (item : dict pyval) : M state (option Z) :=
  lift (validate_keys item (inr (_datadef self)) true) ;;;
  _get_cursor self ;;;
  params <- lift (getitems item (dict_keys (_datadef self))) ;;
  cursor <- on_world (cursor_execute (add_sql self) params) ;;
  ret (Engine.lastrowid cursor).

Definition delete_sql (self : _AsyncDataBase) : string :=
  "DELETE FROM " +:+ _table_name self +:+ " WHERE id = ?".

Definition delete (self : _AsyncDataBase) (item_id : Z) : M state unit :=
  _get_cursor self ;;;
  on_world (cursor_execute (delete_sql self) [PInt item_id]) ;;;
  ret tt.

(** The loop of [modify] over [info.items()]. *)
Definition modify_loop (update_query : string) (info : dict pyval)
  : string * list pyval :=
  fold_left
    (fun acc kv =>
       (fst acc +:+ fst kv +:+ " = ?, ", snd acc ++ [snd kv]))
    info (update_query, []).

Definition modify_sql (self : _AsyncDataBase) (info : dict pyval) : string :=
  rstrip ", " (fst (modify_loop ("UPDATE " +:+ _table_name self +:+ " SET ") info))
  +:+ " WHERE id = ?".

Definition modify_params (self : _AsyncDataBase) (item_id : Z) (info : dict pyval)
  : list pyval :=
  snd (modify_loop ("UPDATE " +:+ _table_name self +:+ " SET ") info)
  ++ [PInt item_id].

Definition modify (self : _AsyncDataBase) (item_id : Z) (info : dict pyval)
  : M state unit :=
  match info with
  | [] => ret tt
  | _ =>
      lift (validate_keys info (inr (_datadef self)) false) ;;;
      _get_cursor self ;;;
      on_world (cursor_execute (modify_sql self info)
                               (modify_params self item_id info)) ;;;
      ret tt
  end.

(** The loop of [search] over [info.items()]. *)
Definition search_loop (self : _AsyncDataBase) (_fuzzy_match_ : bool)
  (info : dict pyval) : list string * list pyval :=
  fold_left
    (fun acc kv =>
       if _fuzzy_match_
          && bool_decide (dict_get (_datadef_with_id self) (fst kv) = Some Tstr)
       then (fst acc ++ [fst kv +:+ " LIKE ?"],
             snd acc ++ [PStr ("%" +:+ py_str (snd kv) +:+ "%")])
       else (fst acc ++ [fst kv +:+ " = ?"], snd acc ++ [snd kv]))
    info ([], []).

Definition search_sql (self : _AsyncDataBase) (_fuzzy_match_ : bool)
  (info : dict pyval) : string :=
  let query := "SELECT * FROM " +:+ _table_name self in
  match info with
  | [] => query
  | _ => (query +:+ " WHERE ")
         +:+ join " AND " (fst (search_loop self _fuzzy_match_ info))
  end.

Definition search_params (self : _AsyncDataBase) (_fuzzy_match_ : bool)
  (info : dict pyval) : list pyval :=
  match info with
  | [] => []
  | _ => snd (search_loop self _fuzzy_match_ info)
  end.

(** [{k: row[i] for i, k in enumerate(keys)}] *)
Fixpoint render_row (keys : list string) (i : nat) (row : list pyval)
  : outcome (dict pyval) :=
  match keys with
  | [] => Ok []
  | k :: keys' =>
      match row !! i with
      | Some v => obind (render_row keys' (S i) row) (fun book => Ok ((k, v) :: book))
      | None => Raise IndexError
      end
  end.

Fixpoint render_rows (keys : list string) (rows : list (list pyval))
  : outcome (list (dict pyval)) :=
  match rows with
  | [] => Ok []
  | row :: rows' =>
      obind (render_row keys 0 row) (fun book =>
      obind (render_rows keys rows') (fun books => Ok (book :: books)))
  end.

Definition search (self : _AsyncDataBase) (_fuzzy_match_ : bool)
  (info : dict pyval) : M state (list (dict pyval)) :=
  lift (validate_keys info (inr (_datadef_with_id self)) false) ;;;
  _get_cursor self ;;;
  cursor <- on_world (cursor_execute (search_sql self _fuzzy_match_ info)
                                     (search_params self _fuzzy_match_ info)) ;;
  lift (render_rows (dict_keys (_datadef_with_id self)) (Engine.fetchall cursor)).

Definition vacuum (self : _AsyncDataBase) : M state unit :=
  _get_cursor self ;;;
  on_world (cursor_execute "VACUUM" []) ;;;
  ret tt.

End Async.

(** ** custom_decorators.py

    A decorated function is a callable: it takes its arguments, acts on a
    state and returns a value or raises.  The threads of [Scheduler] and the
    waiting on the locks of [OnlyOneRunning] and [CacheWrapper] are no part
    of the model: a call runs to its end, alone. *)
Module Decorators.

(** An exception: [FallbackFailure], which the file defines, or any other,
    taken from a type [E]. *)
Inductive exc (E : Type) : Type :=
| FallbackFailure (msg : string)
| Other (e : E).
Arguments FallbackFailure {E} msg.
Arguments Other {E} e.

Inductive res (E A : Type) : Type :=
| Return (a : A)
| Throw (e : exc E).
Arguments Return {E A} a.
Arguments Throw {E A} e.

(** A computation on the state [S]; the state survives an exception. *)
Definition run (S E A : Type) : Type := S -> res E A * S.

Definition unit_ {S E A} (a : A) : run S E A := fun s => (Return a, s).

Definition then_ {S E A B} (m : run S E A) (k : A -> run S E B) : run S E B :=
  fun s =>
    match m s with
    | (Return a, s') => k a s'
    | (Throw e, s') => (Throw e, s')
    end.

(** [decorate]: the loop over [decorators].  A decorator may act on the
    state and may raise. *)
Fixpoint decorate {S E F} (func : F) (decorators : list (F -> run S E F))
  : run S E F :=
  match decorators with
  | [] => unit_ func
  | deco :: rest => then_ (deco func) (fun func => decorate func rest)
  end.

(** [compress]: the decorator it returns for [decos], with its loop over
    [reversed(decos)]. *)
Definition compress {S E F} (decos : list (F -> run S E F)) : F -> run S E F :=
  fun func =>
    (fix loop (f : F) (ds : list (F -> run S E F)) : run S E F :=
       match ds with
       | [] => unit_ f
       | deco :: rest => then_ (deco f) (fun f => loop f rest)
       end) func (rev decos).

(** [discard_return(func)] *)
Definition discard_return {S E Args A} (func : Args -> run S E A)
  : Args -> run S E unit :=
  fun args => then_ (func args) (fun _ => unit_ tt).

Module Fallbacker.
Section Fallbacker.

Context {S E Args R cls : Type}.

(** [isinstance(e, c)], the class [Exception], and what [logging.warning]
    does to the state with the exception it is given. *)
Variable isinstance : exc E -> cls -> bool.
Variable Exception_ : cls.
Variable logging_warning : exc E -> S -> S.

Record t : Type := mk {
  _tol_excs : list cls;
  _func : Args -> run S E R;
  _fallback_funcs : list (Args -> run S E R)
}.

Definition __init__ (func : Args -> run S E R)
  (tolerable_exceptions : option (list cls)) : t :=
  mk (match tolerable_exceptions with
      | Some (c :: l) => c :: l
      | _ => [Exception_]
      end) func [].

(** [except self._tol_excs] catches [e]. *)
Definition tolerated (self : t) (e : exc E) : bool :=
  existsb (isinstance e) (_tol_excs self).

(** The loop of [_do_fallback]. *)
Fixpoint fallback_loop (self : t) (funcs : list (Args -> run S E R)) (args : Args)
  : run S E R :=
  fun s =>
    match funcs with
    | [] => (Throw (FallbackFailure "No more func to fallback"), s)
    | func :: rest =>
        match func args s with
        | (Return r, s') => (Return r, s')
        | (Throw e, s') =>
            if tolerated self e
            then fallback_loop self rest args (logging_warning e s')
            else (Throw e, s')
        end
    end.

Definition _do_fallback (self : t) (args : Args) : run S E R :=
  fallback_loop self (_fallback_funcs self) args.

Definition __call__ (self : t) (args : Args) : run S E R :=
  fun s =>
    match _func self args s with
    | (Return r, s') => (Return r, s')
    | (Throw e, s') =>
        if tolerated self e then
          match _fallback_funcs self with
          | [] => (Throw e, s')
          | _ => _do_fallback self args s'
          end
        else (Throw e, s')
    end.

(** [register(func)]: the object after the call, and what the call returns. *)
Definition register (self : t) (func : Args -> run S E R)
  : t * (Args -> run S E R) :=
  (mk (_tol_excs self) (_func self) (_fallback_funcs self ++ [func]), func).

End Fallbacker.
End Fallbacker.

(** [fallback(tolerable_exceptions)]: the decorator. *)
Definition fallback {S E Args R cls} (Exception_ : cls)
  (tolerable_exceptions : option (list cls)) (func : Args -> run S E R)
  : @Fallbacker.t S E Args R cls :=
  Fallbacker.__init__ Exception_ func tolerable_exceptions.

Module CacheWrapper.
Section CacheWrapper.

Context {S E Args R : Type}.

(** [time.time()]: a reading of the clock, which may change the state. *)
Variable time_time : S -> float * S.

(** The result of the wrapped function is a value or [None]. *)
Record t : Type := mk {
  _func : Args -> run S E (option R);
  _expire : float;
  _last_call : float;
  _cache : option R
}.

(** [expire] is a float here; an [int] stands for its float value. *)
Definition __init__ (func : Args -> run S E (option R)) (expire : float) : t :=
  mk func expire 0%float None.

(** [self._cache is None or time.time() - self._last_call >= self._expire]:
    the clock is read only when something is cached. *)
Definition stale (self : t) (s : S) : bool * S :=
  match _cache self with
  | None => (true, s)
  | Some _ =>
      let (now, s') := time_time s in
      (PrimFloat.leb (_expire self) (PrimFloat.sub now (_last_call self)), s')
  end.

(** [__call__]: the result, the object after the call and the state. *)
Definition __call__ (self : t) (args : Args) (s : S)
  : res E (option R) * (t * S) :=
  let (refresh, s1) := stale self s in
  if refresh then
    match _func self args s1 with
    | (Return v, s2) =>
        let (now, s3) := time_time s2 in
        (Return v, (mk (_func self) (_expire self) now v, s3))
    | (Throw e, s2) => (Throw e, (self, s2))
    end
  else (Return (_cache self), (self, s1)).

End CacheWrapper.
End CacheWrapper.

(** [cache(expire)]: the decorator. *)
Definition cache {S E Args R} (expire : float)
  (func : Args -> run S E (option R)) : @CacheWrapper.t S E Args R :=
  CacheWrapper.__init__ func expire.

End Decorators.

(** ** The statements, read back

    Definitions that the theorems below are stated with: what the spec says
    a statement looks like, what the engine holds for a schema, and the
    records a table shows. *)

Abbreviation L := list_ascii_of_string.

(** A character that ends a word of a statement. *)
Definition is_delim (c : ascii) : bool := Ascii.is_space c || Engine.is_sym c.

(** The reference key set of [validate_keys]. *)
Definition reference_keys {B} (dt : TableDef + dict B) : gset string :=
  match dt with
  | inl td => list_to_set (map name td)
  | inr m => list_to_set (dict_keys m)
  end.

(** The field map of a schema whose names are distinct. *)
Definition fields (td : TableDef) : dict pytype :=
  map (fun rd => (name rd, type rd)) td.

(** A column as the spec renders it: [name storageType [UNIQUE] [NOT NULL]]. *)
Definition spec_column (rd : _RowDef) : string :=
  join " " ([name rd; fmt_opt (type_to_sqlitetype (type rd))]
            ++ (if unique rd then ["UNIQUE"] else [])
            ++ (if nullable rd then [] else ["NOT NULL"])).

(** The columns the engine holds for a schema: one per field, then the id. *)
Definition column_of (rd : _RowDef) : Engine.column :=
  Engine.mk_column (name rd) (fmt_opt (type_to_sqlitetype (type rd)))
    (unique rd) (negb (nullable rd)) false.

Definition id_column : Engine.column :=
  Engine.mk_column "id" "INTEGER" false false true.

Definition table_columns (td : TableDef) : list Engine.column :=
  map column_of td ++ [id_column].

(** A schema the engine can hold under the table name [tname]: names that
    are identifiers, distinct whatever their case and distinct from [id], and
    at least one field. *)
Definition wf_schema (td : TableDef) (tname : string) : bool :=
  Engine.is_ident tname
  && forallb Engine.is_ident (map name td)
  && bool_decide (NoDup (map lower (map name td ++ ["id"])))
  && (match td with [] => false | _ => true end).


(** One assignment of an UPDATE. *)
Definition set_text (kv : string * pyval) : string := fst kv +:+ " = ?".







(** The connection event of the cooperative variant: only when none is open. *)
Definition opened (path : string) (s : Async.state) : list event :=
  match Async._conn s with
  | None => [Connect path]
  | Some _ => []
  end.

(** Between two worlds exactly one statement was executed, [sql] with
    [ps]; it either raised and left the tables as they were, or the tables
    are what the engine made of it. *)
Definition single_statement (w w' : world) (failed : bool) : Prop :=
  exists sql ps,
    statements (trace w') = statements (trace w) ++ [Execute sql ps]
    /\ if failed then disk w' = disk w
       else exists cur, Engine.execute sql ps (disk w) = inr (cur, disk w').

Definition raised {A} (r : outcome A) : bool :=
  match r with
  | Ok _ => false
  | Raise _ => true
  end.

(** ** A running example: the table [books] *)

Definition books_schema : TableDef :=
  [RowDef_default "title" Tstr; RowDef_default "pages" Tint].

Definition books_db : Sync._DataBase := Sync.init_fields "books.db" books_schema "books".

Definition books_adb : Async._AsyncDataBase :=
  Async.__init__ "books.db" books_schema "books".

(** The world after [BookDB("books.db")] on an empty database file. *)
Definition books_world : world :=
  snd (Sync.__init__ "books.db" books_schema "books" (mk_world ∅ [])).


Definition hello : dict pyval := [("pages", PInt 3); ("title", PStr "Hello World")].

(** The world after [db.add(hello)]. *)
Definition books_world1 : world := snd (Sync.add books_db hello books_world).

Definition books_table1 : Engine.table :=
  Engine.mk_table (table_columns books_schema) [[PStr "Hello World"; PInt 3; PInt 1]] 1.



(** The engine a scalar schema leads to, as C10 states it: a table whose
    only column is [id]. *)
Definition manages_id_table (w : world) (tname : string) : Prop :=
  exists tb, disk w !! tname = Some tb /\ Engine.t_cols tb = [id_column].

(** The engine of the cooperative variant, seen as one of the blocking
    variant. *)
Definition as_sync (a : Async._AsyncDataBase) : Sync._DataBase :=
  Sync.mk_DataBase (Async._tabledef a) (Async._datadef a) (Async._datadef_with_id a)
    (Async._table_name a) (Async._dbpath a).

(** ** Schemas, calls and decorated functions

    More definitions that theorems are stated with. *)

(** The type of the last row definition named [k]. *)
Definition last_type (td : TableDef) (k : string) : option pytype :=
  type <$> last (filter (fun rd => name rd = k) td).

(** The names of a list, each once, in the order of their first occurrence;
    [seen] holds the names met so far. *)
Fixpoint first_occurrences (seen : gset string) (l : list string) : list string :=
  match l with
  | [] => []
  | k :: l' =>
      if bool_decide (k ∈ seen) then first_occurrences seen l'
      else k :: first_occurrences ({[k]} ∪ seen) l'
  end.

(** The exceptions [search] can end with. *)
Definition search_failure (e : exn) : Prop :=
  (exists msg, e = KeysValidationFailure msg)
  \/ (exists se, e = StorageError se)
  \/ e = IndexError.

(** A call on an engine object of the cooperative variant. *)
Inductive call : Type :=
| CallEnter
| CallExit
| CallCreateTable
| CallAdd (item : dict pyval)
| CallDelete (item_id : Z)
| CallModify (item_id : Z) (info : dict pyval)
| CallSearch (fuzzy : bool) (info : dict pyval)
| CallVacuum
| CallClose.

(** The state a call leaves, whether it returns or raises. *)
Definition run_call (aself : Async._AsyncDataBase) (c : call) (s : Async.state)
  : Async.state :=
  match c with
  | CallEnter => snd (Async.__aenter__ aself s)
  | CallExit => snd (Async.__aexit__ aself s)
  | CallCreateTable => snd (Async.create_table aself s)
  | CallAdd item => snd (Async.add aself item s)
  | CallDelete item_id => snd (Async.delete aself item_id s)
  | CallModify item_id info => snd (Async.modify aself item_id info s)
  | CallSearch fuzzy info => snd (Async.search aself fuzzy info s)
  | CallVacuum => snd (Async.vacuum aself s)
  | CallClose => snd (Async.close aself s)
  end.

Definition run_calls (aself : Async._AsyncDataBase) (cs : list call) (s : Async.state)
  : Async.state :=
  fold_left (fun s c => run_call aself c s) cs s.

(** The connections among the events. *)
Definition connections (tr : list event) : list event :=
  List.filter (fun e => negb (is_execute e)) tr.

Definition is_close (c : call) : bool :=
  match c with
  | CallClose | CallExit => true
  | _ => false
  end.

(** How many connections a sequence of calls may open: one when none is
    open at the start, and one after each [close]. *)
Definition may_open (s : Async.state) (cs : list call) : nat :=
  (match Async._conn s with None => 1 | Some _ => 0 end
   + length (List.filter is_close cs))%nat.

(** What a call other than [close] does to the connection: nothing, or it
    opens the one to the object's path when none was open. *)
Definition call_step (aself : Async._AsyncDataBase) (s s1 : Async.state) : Prop :=
  (Async._conn s1 = Async._conn s
   /\ connections (trace (Async.outside s1)) = connections (trace (Async.outside s)))
  \/ (Async._conn s = None /\ Async._conn s1 = Some (Async._dbpath aself)
      /\ connections (trace (Async.outside s1))
         = connections (trace (Async.outside s)) ++ [Connect (Async._dbpath aself)]).



(** The object after [fallback(tolerable_exceptions)] has decorated [func]
    and each function of [funcs] has been registered, in this order. *)
Definition registered {S E Args R cls} (Exception_ : cls)
  (tolerable_exceptions : option (list cls)) (func : Args -> Decorators.run S E R)
  (funcs : list (Args -> Decorators.run S E R))
  : @Decorators.Fallbacker.t S E Args R cls :=
  fold_left (fun self f => fst (Decorators.Fallbacker.register self f)) funcs
    (Decorators.fallback Exception_ tolerable_exceptions func).

(** Every function of [funcs], called in turn from the state [s], raises a
    tolerated exception; [s'] is the state after the last warning. *)
Inductive all_tolerated {S E Args R cls} (isinstance : Decorators.exc E -> cls -> bool)
  (logging_warning : Decorators.exc E -> S -> S)
  (self : @Decorators.Fallbacker.t S E Args R cls) (args : Args)
  : list (Args -> Decorators.run S E R) -> S -> S -> Prop :=
| all_tolerated_nil s : all_tolerated isinstance logging_warning self args [] s s
| all_tolerated_cons func rest s e s1 s2 :
    func args s = (Decorators.Throw e, s1) ->
    Decorators.Fallbacker.tolerated isinstance self e = true ->
    all_tolerated isinstance logging_warning self args rest (logging_warning e s1) s2 ->
    all_tolerated isinstance logging_warning self args (func :: rest) s s2.

(** The decorators of [decos] applied as a stack of [@] lines above a
    definition: the last one first, the first one outermost. *)
Fixpoint stacked {S E F} (decos : list (F -> Decorators.run S E F)) (func : F)
  : Decorators.run S E F :=
  match decos with
  | [] => Decorators.unit_ func
  | deco :: rest => Decorators.then_ (stacked rest func) deco
  end.

(** Functions to decorate: exceptions are numbers, every class catches
    every exception, the state counts the warnings. *)
Definition demo_primary : unit -> Decorators.run nat nat nat :=
  fun _ s => (Decorators.Throw (Decorators.Other 1%nat), s).

Definition demo_failing : unit -> Decorators.run nat nat nat :=
  fun _ s => (Decorators.Throw (Decorators.Other 2%nat), s).

Definition demo_working : unit -> Decorators.run nat nat nat :=
  fun _ s => (Decorators.Return 7%nat, s).

Definition demo_isinstance : Decorators.exc nat -> unit -> bool := fun _ _ => true.

Definition demo_warning : Decorators.exc nat -> nat -> nat := fun _ s => Datatypes.S s.

(** A clock and functions to cache: the state is the time in seconds, and
    reading the clock takes one second. *)
Definition demo_clock : float -> float * float :=
  fun t => (t, PrimFloat.add t 1%float).

Definition demo_double : nat -> Decorators.run float nat (option nat) :=
  fun n s => (Decorators.Return (Some (2 * n)%nat), s).

Definition demo_nothing : nat -> Decorators.run float nat (option nat) :=
  fun n s => (Decorators.Return None, s).

Ltac unfold_m :=
  unfold bind, lift, ret, raise, Sync._get_connection,
    Async._get_cursor, Async._get_conn, Async.on_world, connect;
  cbv beta iota.

#[local] Arguments join : simpl never.

(** * Lemmas *)

(** ** The model on the running example

    The texts are the ones the Python code passes to [execute], character
    for character. *)

Example create_table_sql_books :
  Sync.create_table_sql books_db = "
                CREATE TABLE IF NOT EXISTS books (
                    title TEXT NOT NULL, pages INTEGER NOT NULL,
                    id INTEGER PRIMARY KEY AUTOINCREMENT
                )
                ".
Proof. reflexivity. Qed.

Example add_sql_books :
  Sync.add_sql books_db = "
                INSERT INTO books (title, pages)
                VALUES (?, ?)
                ".
Proof. reflexivity. Qed.

Example modify_sql_books :
  Sync.modify_sql books_db [("pages", PInt 7); ("title", PStr "B")]
  = "UPDATE books SET pages = ?, title = ? WHERE id = ?"
  /\ Sync.modify_params books_db 2 [("pages", PInt 7); ("title", PStr "B")]
     = [PInt 7; PStr "B"; PInt 2].
Proof. split; reflexivity. Qed.

Example delete_sql_books : Sync.delete_sql books_db = "DELETE FROM books WHERE id = ?".
Proof. reflexivity. Qed.

Example py_str_values :
  py_str (PInt (-12)) = "-12" /\ py_str PNone = "None"
  /\ py_str (PStr "a%b") = "a%b" /\ py_str (PBytes "ab") = "b'ab'".
Proof. repeat split; reflexivity. Qed.

Example books_after_add :
  Sync.add books_db hello books_world
  = (Ok (Some 1),
     mk_world {[ "books" := books_table1 ]}
       (trace books_world
        ++ [Connect "books.db";
            Execute (Sync.add_sql books_db) [PStr "Hello World"; PInt 3]])).
Proof. by vm_compute. Qed.

(** The fuzzy flag on a text field and on the id. *)
Example fuzzy_search_books :
  fst (Sync.search books_db true [("title", PStr "hello")] books_world1)
  = Ok [[("title", PStr "Hello World"); ("pages", PInt 3); ("id", PInt 1)]]
  /\ fst (Sync.search books_db false [("title", PStr "Hello")] books_world1) = Ok []
  /\ fst (Sync.search books_db true [("pages", PInt 3)] books_world1)
     = Ok [[("title", PStr "Hello World"); ("pages", PInt 3); ("id", PInt 1)]]
  /\ fst (Sync.search books_db true [("author", PStr "x")] books_world1)
     = Raise (KeysValidationFailure "unexpected keys: author").
Proof. repeat split; by vm_compute. Qed.

(** ** The lexer on the text of a statement *)

Lemma L_app (a b : string) : L (a +:+ b) = L a ++ L b.
Proof. induction a as [|c a IH]; simpl; [done|]. by rewrite IH. Qed.

Lemma ident_char_not_delim c : Engine.is_ident_char c = true -> is_delim c = false.
Proof. destruct c as [[] [] [] [] [] [] [] []]; vm_compute; congruence. Qed.

Lemma lex_word acc l rest :
  Forall (fun c => is_delim c = false) l ->
  Engine.lex acc (l ++ rest) = Engine.lex (acc ++ l) rest.
Proof.
  intros H. revert acc. induction H as [|c l Hc _ IH]; intros acc; simpl.
  - by rewrite app_nil_r.
  - unfold is_delim in Hc. apply orb_false_iff in Hc as [-> ->].
    rewrite IH. by rewrite <- app_assoc.
Qed.

Lemma is_ident_chars w :
  Engine.is_ident w = true ->
  L w <> [] /\ Forall (fun c => is_delim c = false) (L w).
Proof.
  unfold Engine.is_ident. destruct (L w) as [|c l] eqn:E; [done|].
  intros H. split; [done|].
  apply andb_true_iff in H as [H _]. apply andb_true_iff in H as [_ H].
  apply Forall_forall. intros x Hx.
  apply ident_char_not_delim. apply (proj1 (List.forallb_forall _ _) H).
  by apply list_elem_of_In.
Qed.

Lemma flush_word w : L w <> [] -> Engine.flush (L w) = [Engine.TWord w].
Proof.
  intros H. unfold Engine.flush. destruct (L w) eqn:E; [done|].
  by rewrite <- E, string_of_list_ascii_of_string.
Qed.

Lemma lex_ident w c rest :
  Engine.is_ident w = true -> is_delim c = true ->
  Engine.lex [] (L w ++ c :: rest) = Engine.TWord w :: Engine.lex [] (c :: rest).
Proof.
  intros [Hne Hw]%is_ident_chars Hc. rewrite lex_word by done. simpl.
  unfold is_delim in Hc. destruct (Ascii.is_space c); simpl.
  - by rewrite flush_word.
  - simpl in Hc. rewrite Hc. by rewrite flush_word.
Qed.


(** ** The parser on the statements the code builds *)

Lemma join_one sep x : join sep [x] = x.
Proof. reflexivity. Qed.

Lemma join_cons2 sep x y l : join sep (x :: y :: l) = x +:+ sep +:+ join sep (y :: l).
Proof. reflexivity. Qed.


Lemma parse_names_join ns rest :
  ns <> [] -> Forall (fun n => Engine.is_ident n = true) ns ->
  Engine.parse_names (Engine.lex [] (L (join ", " ns) ++ ")"%char :: rest))
  = Some (ns, Engine.lex [] rest).
Proof.
  destruct ns as [|x ns]; [done|]. intros _. revert x.
  induction ns as [|y ns IH]; intros x Hall.
  - apply Forall_cons in Hall as [Hx _]. rewrite join_one.
    rewrite lex_ident by done. simpl. by rewrite Hx.
  - apply Forall_cons in Hall as [Hx Hall].
    rewrite join_cons2, !L_app, <- !app_assoc. simpl.
    rewrite lex_ident by done. simpl. rewrite Hx.
    by rewrite (IH y Hall).
Qed.

Lemma parse_marks_join n rest :
  Engine.parse_marks
    (Engine.lex [] (L (join ", " (replicate (S n) "?")) ++ ")"%char :: rest))
  = Some (S n, Engine.lex [] rest).
Proof.
  induction n as [|n IH].
  - reflexivity.
  - change (replicate (S (S n)) "?") with ("?" :: replicate (S n) "?").
    change (replicate (S n) "?") with ("?" :: replicate n "?") at 1.
    rewrite join_cons2, !L_app, <- !app_assoc. simpl.
    change ("?" :: replicate n "?") with (replicate (S n) "?").
    by rewrite IH.
Qed.

Lemma append_cons x (a b : string) : String x a +:+ b = String x (a +:+ b).
Proof. reflexivity. Qed.

Lemma append_nil_l (b : string) : "" +:+ b = b.
Proof. reflexivity. Qed.

Lemma app_assoc_s (a b c : string) : (a +:+ b) +:+ c = a +:+ (b +:+ c).
Proof.
  induction a as [|x a IH]; [done|]. by rewrite !append_cons, IH.
Qed.

Lemma app_nil_r_s (a : string) : a +:+ "" = a.
Proof. induction a as [|x a IH]; [done|]. by rewrite append_cons, IH. Qed.

Lemma parse_add_sql self :
  Engine.is_ident (Sync._table_name self) = true ->
  Sync._datadef self <> [] ->
  Forall (fun n => Engine.is_ident n = true) (dict_keys (Sync._datadef self)) ->
  Engine.parse (Engine.tokens (Sync.add_sql self))
  = Some (Engine.SInsert (Sync._table_name self) (dict_keys (Sync._datadef self))
            (length (Sync._datadef self))).
Proof.
  intros Ht Hne Hk. unfold Engine.tokens, Sync.add_sql.
  rewrite !L_app. simpl. rewrite lex_ident by done. simpl. rewrite Ht.
  rewrite parse_names_join; [|by destruct (Sync._datadef self)|done].
  simpl. destruct (Sync._datadef self) as [|kv d] eqn:E; [done|].
  cbn [length]. rewrite parse_marks_join. done.
Qed.

Lemma modify_loop_eq (q : string) (info : dict pyval) (acc : list pyval) :
  fold_left
    (fun (acc : string * list pyval) (kv : string * pyval) =>
       (fst acc +:+ fst kv +:+ " = ?, ", snd acc ++ [snd kv]))
    info (q, acc)
  = (q +:+ String.concat "" (map (fun kv => fst kv +:+ " = ?, ") info),
     acc ++ map snd info).
Proof.
  revert q acc. induction info as [|kv info IH]; intros q acc; simpl.
  - by rewrite app_nil_r_s, app_nil_r.
  - rewrite IH. f_equal.
    + destruct info; simpl; by rewrite ?app_nil_r_s, ?app_assoc_s.
    + by rewrite <- app_assoc.
Qed.

Lemma rstrip_list_keep chars (l : list ascii) c :
  in_chars chars c = false -> rstrip_list chars (l ++ [c]) = l ++ [c].
Proof.
  intros Hc. induction l as [|x l IH]; simpl.
  - by rewrite Hc.
  - rewrite IH. by destruct (l ++ [c]) eqn:E; [destruct l|].
Qed.

Lemma rstrip_list_drop chars (l t : list ascii) :
  Forall (fun c => in_chars chars c = true) t ->
  rstrip_list chars (l ++ t) = rstrip_list chars l.
Proof.
  intros Ht. induction l as [|x l IH]; simpl.
  - induction Ht as [|c t Hc _ IHt]; simpl; [done|]. by rewrite IHt, Hc.
  - by rewrite IH.
Qed.

Lemma sets_concat_join (info : dict pyval) :
  info <> [] ->
  String.concat "" (map (fun kv => fst kv +:+ " = ?, ") info)
  = join ", " (map set_text info) +:+ ", ".
Proof.
  destruct info as [|kv info]; [done|]. intros _. revert kv.
  induction info as [|kv' info IH]; intros kv.
  - cbn [map String.concat]. rewrite join_one. unfold set_text.
    by rewrite app_assoc_s.
  - change (String.concat "" (map (fun kv => fst kv +:+ " = ?, ") (kv :: kv' :: info)))
      with ((fst kv +:+ " = ?, ") +:+ "" +:+
            String.concat "" (map (fun kv => fst kv +:+ " = ?, ") (kv' :: info))).
    rewrite IH. cbn [map]. rewrite join_cons2.
    assert (fst kv +:+ " = ?, " = set_text kv +:+ ", ") as ->.
    { unfold set_text. by rewrite app_assoc_s. }
    by rewrite append_nil_l, !app_assoc_s.
Qed.

Lemma rstrip_tail (s : string) : rstrip ", " ((s +:+ "?") +:+ ", ") = s +:+ "?".
Proof.
  unfold rstrip. rewrite !L_app.
  rewrite (rstrip_list_drop _ _ (L ", ")) by (repeat constructor).
  change (L "?") with ["?"%char]. rewrite rstrip_list_keep by done.
  change ["?"%char] with (L "?"). rewrite <- L_app.
  apply string_of_list_ascii_of_string.
Qed.

Lemma join_sets_tail (kv : string * pyval) (info : dict pyval) :
  exists p, join ", " (map set_text (kv :: info)) = p +:+ "?".
Proof.
  revert kv. induction info as [|kv' info IH]; intros kv.
  - exists (fst kv +:+ " = "). unfold set_text. cbn [map]. rewrite join_one.
    by rewrite app_assoc_s.
  - destruct (IH kv') as [p Hp]. exists (set_text kv +:+ ", " +:+ p).
    cbn [map] in *. rewrite join_cons2, Hp. by rewrite !app_assoc_s.
Qed.

Lemma modify_sql_eq self (info : dict pyval) :
  info <> [] ->
  Sync.modify_sql self info
  = ("UPDATE " +:+ Sync._table_name self +:+ " SET ")
    +:+ join ", " (map set_text info) +:+ " WHERE id = ?".
Proof.
  intros Hne. unfold Sync.modify_sql, Sync.modify_loop.
  rewrite modify_loop_eq. cbn [fst]. rewrite sets_concat_join by done.
  destruct info as [|kv info]; [done|].
  destruct (join_sets_tail kv info) as [p ->].
  set (q := "UPDATE " +:+ Sync._table_name self +:+ " SET ").
  rewrite <- (app_assoc_s q (p +:+ "?") ", "), <- (app_assoc_s q p "?").
  rewrite rstrip_tail. by rewrite !app_assoc_s.
Qed.

Lemma modify_params_eq self id (info : dict pyval) :
  Sync.modify_params self id info = map snd info ++ [PInt id].
Proof.
  unfold Sync.modify_params, Sync.modify_loop. by rewrite modify_loop_eq.
Qed.

Lemma parse_sets_join (info : dict pyval) rest :
  info <> [] -> Forall (fun n => Engine.is_ident n = true) (dict_keys info) ->
  Engine.parse_sets
    (Engine.lex [] (L (join ", " (map set_text info)) ++ L " WHERE " ++ rest))
  = Some (dict_keys info, Engine.lex [] rest).
Proof.
  destruct info as [|kv info]; [done|]. intros _. revert kv.
  induction info as [|kv' info IH]; intros kv Hall.
  - apply Forall_cons in Hall as [Hx _]. cbn [map]. rewrite join_one.
    unfold set_text. rewrite !L_app, <- !app_assoc. simpl.
    rewrite lex_ident by done. simpl. by rewrite Hx.
  - apply Forall_cons in Hall as [Hx Hall]. cbn [map].
    rewrite join_cons2. unfold set_text at 1.
    rewrite !L_app, <- !app_assoc. simpl.
    rewrite lex_ident by done. simpl. rewrite Hx.
    change (set_text kv' :: map set_text info) with (map set_text (kv' :: info)).
    change (" "%char :: "W"%char :: "H"%char :: "E"%char :: "R"%char
            :: "E"%char :: " "%char :: rest) with (L " WHERE " ++ rest).
    by rewrite (IH kv' Hall).
Qed.

Lemma parse_modify_sql self (info : dict pyval) :
  Engine.is_ident (Sync._table_name self) = true ->
  info <> [] -> Forall (fun n => Engine.is_ident n = true) (dict_keys info) ->
  Engine.parse (Engine.tokens (Sync.modify_sql self info))
  = Some (Engine.SUpdate (Sync._table_name self) (dict_keys info) [Engine.CEq "id"]).
Proof.
  intros Ht Hne Hk. rewrite modify_sql_eq by done. unfold Engine.tokens.
  rewrite !L_app, <- !app_assoc. simpl. rewrite lex_ident by done. simpl.
  rewrite Ht.
  change (" "%char :: "W"%char :: "H"%char :: "E"%char :: "R"%char
          :: "E"%char :: " "%char :: ?x) with (L " WHERE " ++ L "id = ?").
  rewrite (parse_sets_join info (L "id = ?")) by done. reflexivity.
Qed.





(** ** Dictionaries and key validation *)

Lemma eqb_eq_s (a b : string) : String.eqb a b = true <-> a = b.
Proof. apply String.eqb_eq. Qed.


Lemma dict_get_Some_elem {V} (d : dict V) k v : dict_get d k = Some v -> k ∈ dict_keys d.
Proof.
  induction d as [|[k' v'] d IH]; simpl; [done|].
  destruct (String.eqb k' k) eqn:E.
  - apply String.eqb_eq in E as ->. intros _. apply elem_of_cons. by left.
  - intros H. apply elem_of_cons. right. by apply IH.
Qed.

Lemma dict_get_is_Some {V} (d : dict V) k : k ∈ dict_keys d -> is_Some (dict_get d k).
Proof.
  induction d as [|[k' v'] d IH]; simpl.
  - by intros ?%elem_of_nil.
  - intros H. destruct (String.eqb k' k) eqn:E; [by eexists|].
    apply elem_of_cons in H as [->|H]; [|by apply IH].
    by rewrite String.eqb_refl in E.
Qed.

Lemma dict_set_fresh {V} (d : dict V) k v :
  k ∉ dict_keys d -> dict_set d k v = d ++ [(k, v)].
Proof.
  induction d as [|[k' v'] d IH]; simpl; [done|].
  intros H. apply not_elem_of_cons in H as [Hne H].
  destruct (String.eqb k' k) eqn:E.
  - apply String.eqb_eq in E. congruence.
  - by rewrite IH.
Qed.


Lemma list_to_map_dict_get {V} (d : dict V) k :
  (list_to_map d : gmap string V) !! k = dict_get d k.
Proof.
  induction d as [|[k' v'] d IH]; simpl; [done|].
  destruct (String.eqb k' k) eqn:E.
  - apply String.eqb_eq in E as ->. by rewrite lookup_insert_eq.
  - rewrite lookup_insert_ne; [done|]. intros ->. by rewrite String.eqb_refl in E.
Qed.



Lemma as_dict_nodup td : NoDup (map name td) -> TableDef_as_dict td = fields td.
Proof.
  unfold TableDef_as_dict.
  enough (forall acc, NoDup (dict_keys acc ++ map name td) ->
    fold_left (fun result r => dict_update result (RowDef_as_dict r)) td acc
    = acc ++ fields td) as H by (intros; by apply (H [])).
  induction td as [|rd td IH]; intros acc Hnd; simpl.
  - by rewrite app_nil_r.
  - unfold dict_update. simpl. rewrite dict_set_fresh.
    + rewrite IH.
      * by rewrite <- app_assoc.
      * unfold dict_keys in *. rewrite map_app. simpl. by rewrite <- app_assoc.
    + simpl in Hnd. apply NoDup_app in Hnd as (_ & Hd & _).
      intros Hin. apply (Hd _ Hin). apply elem_of_cons. by left.
Qed.

Lemma getitems_ok (item : dict pyval) ks :
  Forall (fun k => k ∈ dict_keys item) ks ->
  Sync.getitems item ks = Ok (map (fun k => default PNone (dict_get item k)) ks).
Proof.
  induction 1 as [|k ks Hk _ IH]; simpl; [done|].
  unfold Sync.getitem. destruct (dict_get_is_Some item k Hk) as [v ->].
  simpl. by rewrite IH.
Qed.

Lemma validate_full_ok {A B} (d : dict A) (m : dict B) :
  Sync.validate_keys d (inr m) true = Ok tt
  <-> (list_to_set (dict_keys d) : gset string) = list_to_set (dict_keys m).
Proof.
  unfold Sync.validate_keys. case_bool_decide as H; split; try done.
Qed.

Lemma validate_part_ok {A B} (d : dict A) (m : dict B) :
  Sync.validate_keys d (inr m) false = Ok tt
  <-> dict_keys d ⊆ dict_keys m.
Proof.
  unfold Sync.validate_keys. case_bool_decide as H; split; try done.
  - intros Hs. exfalso. apply H. apply set_eq. intros k.
    rewrite elem_of_difference, !elem_of_list_to_set. split; [|by intros ?%elem_of_empty].
    intros [H1 H2]. destruct H2. by apply Hs.
  - intros _ k Hk.
    destruct (decide (k ∈ dict_keys m)) as [|Hn]; [done|].
    assert (k ∈ (list_to_set (dict_keys d) ∖ list_to_set (dict_keys m) : gset string)) as Hin.
    { rewrite elem_of_difference, !elem_of_list_to_set. done. }
    rewrite H in Hin. by apply elem_of_empty in Hin.
Qed.

(** ** The columns of a schema in the engine *)

Lemma wf_schema_inv td tname :
  wf_schema td tname = true ->
  (Engine.is_ident tname = true)
  /\ Forall (fun n => Engine.is_ident n = true) (map name td)
  /\ NoDup (map name td) /\ ("id" ∉ map name td) /\ td <> [].
Proof.
  unfold wf_schema. rewrite !andb_true_iff.
  intros [[[Ht Hn] Hd] He]. apply bool_decide_eq_true in Hd.
  apply NoDup_fmap_1 in Hd. apply NoDup_app in Hd as (Hd & Hx & _).
  repeat split; try done.
  - apply Forall_forall. intros x Hx'.
    apply (proj1 (List.forallb_forall _ _) Hn). by apply list_elem_of_In.
  - intros Hin. apply (Hx _ Hin). apply elem_of_cons. by left.
  - by destruct td.
Qed.

Lemma col_index_app cols1 cols2 n :
  Engine.col_index (cols1 ++ cols2) n
  = match Engine.col_index cols1 n with
    | Some i => Some i
    | None => (fun i => (length cols1 + i)%nat) <$> Engine.col_index cols2 n
    end.
Proof.
  induction cols1 as [|c cols1 IH]; simpl.
  - by destruct (Engine.col_index cols2 n).
  - destruct (String.eqb (Engine.c_name c) n); [done|]. rewrite IH.
    destruct (Engine.col_index cols1 n); [done|].
    by destruct (Engine.col_index cols2 n).
Qed.



Lemma col_index_field td i rd :
  NoDup (map name td) -> td !! i = Some rd ->
  Engine.col_index (table_columns td) (name rd) = Some i.
Proof.
  intros Hnd Hi. unfold table_columns. rewrite col_index_app.
  enough (Engine.col_index (map column_of td) (name rd) = Some i) as -> by done.
  revert i Hnd Hi. induction td as [|rd' td IH]; intros i Hnd Hi; [done|].
  simpl in *. apply NoDup_cons in Hnd as [Hnin Hnd].
  destruct i as [|i]; simpl in Hi.
  - injection Hi as ->. by rewrite String.eqb_refl.
  - destruct (String.eqb (name rd') (name rd)) eqn:E.
    + apply String.eqb_eq in E. destruct Hnin. rewrite E.
      apply list_elem_of_fmap. exists rd. split; [done|].
      by apply list_elem_of_lookup_2 in Hi.
    + by rewrite (IH i).
Qed.







(** ** Rows, constraints and rendered records *)






Lemma render_row_ok (keys : list string) (row : list pyval) i :
  (i + length keys <= length row)%nat ->
  Sync.render_row keys i row = Ok (zip keys (drop i row)).
Proof.
  revert i. induction keys as [|k keys IH]; intros i Hl; simpl; [done|].
  simpl in Hl. destruct (row !! i) as [v|] eqn:E.
  - rewrite IH by lia. simpl. rewrite (drop_S _ v i) by done. reflexivity.
  - apply lookup_ge_None in E. lia.
Qed.


Lemma render_row_fail (keys : list string) (row : list pyval) i :
  keys <> [] -> (length row < i + length keys)%nat ->
  Sync.render_row keys i row = Raise IndexError.
Proof.
  revert i. induction keys as [|k keys IH]; intros i Hne Hl; [done|].
  cbn [Sync.render_row]. destruct (row !! i) as [v|] eqn:E; [|done].
  apply lookup_lt_Some in E. cbn [length] in Hl.
  rewrite IH; [done| |lia]. destruct keys; [simpl in Hl; lia|done].
Qed.




(** ** The operations on an engine whose table exists

    [self] and [aself] are the engines of the two variants for the schema
    [td], the table name [tname] and the database file [path]. *)
Section Statements.

Variables (path tname : string) (td : TableDef).
Hypothesis Hwf : wf_schema td tname = true.

Let self : Sync._DataBase := Sync.init_fields path td tname.
Let aself : Async._AsyncDataBase := Async.__init__ path td tname.


















(** The row that [add] wrote is the one row [search] by its id finds. *)



Lemma dict_get_set {V} (d : dict V) k v k' :
  dict_get (dict_set d k v) k' = if String.eqb k k' then Some v else dict_get d k'.
Proof.
  induction d as [|[k0 v0] d IH]; simpl.
  - done.
  - destruct (String.eqb k0 k) eqn:E0; simpl.
    + apply String.eqb_eq in E0 as ->. by destruct (String.eqb k k').
    + rewrite IH. destruct (String.eqb k0 k') eqn:E1; [|done].
      apply String.eqb_eq in E1 as ->. by rewrite String.eqb_sym, E0.
Qed.


















End Statements.

(** ** The CREATE TABLE statement *)

Lemma type_token_ident t :
  t <> TNone -> Engine.is_ident (fmt_opt (type_to_sqlitetype t)) = true.
Proof. by destruct t. Qed.

Lemma parse_column rd rest :
  Engine.is_ident (name rd) = true -> type rd <> TNone ->
  Engine.parse_columns None
    (Engine.lex [] (L (Sync.column_text rd) ++ ","%char :: rest))
  = match Engine.parse_columns None (Engine.lex [] rest) with
    | Some cols => Some (column_of rd :: cols)
    | None => None
    end.
Proof.
  intros Hn Ht%type_token_ident. unfold Sync.column_text, column_of.
  destruct rd as [n t u nl]. cbn [name type unique nullable] in *.
  destruct u, nl; rewrite !L_app, <- !app_assoc; simpl;
    rewrite lex_ident by done; simpl;
    rewrite lex_ident by done; simpl; rewrite Hn, Ht; simpl; reflexivity.
Qed.

Lemma parse_column_list td rest :
  td <> [] ->
  Forall (fun n => Engine.is_ident n = true) (map name td) ->
  Forall (fun rd => type rd <> TNone) td ->
  Engine.parse_columns None
    (Engine.lex [] (L (join ", " (map Sync.column_text td)) ++ ","%char :: rest))
  = match Engine.parse_columns None (Engine.lex [] rest) with
    | Some cols => Some (map column_of td ++ cols)
    | None => None
    end.
Proof.
  destruct td as [|rd td]; [done|]. intros _. revert rd.
  induction td as [|rd' td IH]; intros rd Hn Ht.
  - apply Forall_cons in Hn as [Hn _]. apply Forall_cons in Ht as [Ht _].
    cbn [map]. rewrite join_one. rewrite parse_column by done.
    by destruct (Engine.parse_columns None (Engine.lex [] rest)).
  - apply Forall_cons in Hn as [Hn Hns]. apply Forall_cons in Ht as [Ht Hts].
    cbn [map]. rewrite join_cons2, !L_app, <- !app_assoc.
    change (L ", " ++ ?x) with (","%char :: " "%char :: x).
    rewrite parse_column by done.
    change (Engine.lex [] (" "%char :: ?x)) with (Engine.lex [] x).
    change (Sync.column_text rd' :: map Sync.column_text td)
      with (map Sync.column_text (rd' :: td)).
    rewrite (IH rd' Hns Hts).
    by destruct (Engine.parse_columns None (Engine.lex [] rest)).
Qed.

Lemma parse_create_sql path td tname :
  wf_schema td tname = true -> Forall (fun rd => type rd <> TNone) td ->
  Engine.parse (Engine.tokens (Sync.create_table_sql (Sync.init_fields path td tname)))
  = Some (Engine.SCreate tname (table_columns td)).
Proof.
  intros (Ht & Hn & _ & _ & Hne)%wf_schema_inv Hty.
  unfold Engine.tokens, Sync.create_table_sql. cbn [Sync._table_name Sync._tabledef Sync.init_fields].
  rewrite !L_app. simpl. rewrite lex_ident by done. simpl.
  rewrite Ht. rewrite parse_column_list by done. reflexivity.
Qed.

(** ** One statement per operation *)

Lemma statements_app (l1 l2 : list event) :
  statements (l1 ++ l2) = statements l1 ++ statements l2.
Proof. unfold statements. apply List.filter_app. Qed.

Lemma cursor_execute_single {A} sql ps (w : world) (pre : list event)
  (k : Engine.cursor -> A) :
  statements pre = [] ->
  let w0 := mk_world (disk w) (trace w ++ pre) in
  let r := cursor_execute sql ps w0 in
  single_statement w (snd r)
    (raised (match fst r with Ok c => Ok (k c) | Raise e => Raise e end)).
Proof.
  intros Hpre w0 r. subst r w0. unfold cursor_execute, single_statement.
  cbn [disk trace]. exists sql, ps.
  destruct (Engine.execute sql ps (disk w)) as [e|[cur db]] eqn:E; cbn.
  - split; [|done]. by rewrite !statements_app, Hpre, app_nil_r.
  - split; [|by eexists]. by rewrite !statements_app, Hpre, app_nil_r.
Qed.

Lemma keys_set_Forall (ks1 ks2 : list string) :
  (list_to_set ks1 : gset string) = list_to_set ks2 ->
  Forall (fun k => k ∈ ks1) ks2.
Proof.
  intros H. apply Forall_forall. intros k Hk.
  assert (k ∈ (list_to_set ks2 : gset string)) as Hin
    by (by apply elem_of_list_to_set).
  rewrite <- H in Hin. by apply elem_of_list_to_set in Hin.
Qed.

Lemma validate_outcome {A B} (d : dict A) (dt : TableDef + dict B) fullmatch :
  Sync.validate_keys d dt fullmatch = Ok tt
  \/ exists msg, Sync.validate_keys d dt fullmatch = Raise (KeysValidationFailure msg).
Proof.
  unfold Sync.validate_keys. destruct fullmatch; case_bool_decide; eauto.
Qed.

Lemma sync_add_single self (item : dict pyval) w :
  Sync.validate_keys item (inr (Sync._datadef self)) true = Ok tt ->
  single_statement w (snd (Sync.add self item w)) (raised (fst (Sync.add self item w))).
Proof.
  intros Hv. unfold Sync.add. unfold_m. rewrite Hv.
  apply validate_full_ok in Hv.
  rewrite getitems_ok by (by apply keys_set_Forall).
  set (ps := map _ _).
  pose proof (cursor_execute_single (Sync.add_sql self) ps w
                [Connect (Sync._dbpath self)] Engine.lastrowid eq_refl) as H.
  cbv zeta in H. destruct (cursor_execute _ _ _) as [[c|e] w']; exact H.
Qed.

Lemma sync_delete_single self id w :
  single_statement w (snd (Sync.delete self id w)) (raised (fst (Sync.delete self id w))).
Proof.
  unfold Sync.delete. unfold_m.
  pose proof (cursor_execute_single (Sync.delete_sql self) [PInt id] w
                [Connect (Sync._dbpath self)] (fun _ => tt) eq_refl) as H.
  cbv zeta in H. destruct (cursor_execute _ _ _) as [[c|e] w']; exact H.
Qed.

Lemma sync_modify_single self id (info : dict pyval) w :
  info <> [] ->
  Sync.validate_keys info (inr (Sync._datadef self)) false = Ok tt ->
  single_statement w (snd (Sync.modify self id info w))
    (raised (fst (Sync.modify self id info w))).
Proof.
  intros Hne Hv. unfold Sync.modify. destruct info as [|kv info]; [done|].
  unfold_m. rewrite Hv.
  pose proof (cursor_execute_single (Sync.modify_sql self (kv :: info))
                (Sync.modify_params self id (kv :: info)) w
                [Connect (Sync._dbpath self)] (fun _ => tt) eq_refl) as H.
  cbv zeta in H. destruct (cursor_execute _ _ _) as [[c|e] w']; exact H.
Qed.

Lemma sync_add_invalid self (item : dict pyval) w e :
  Sync.validate_keys item (inr (Sync._datadef self)) true = Raise e ->
  Sync.add self item w = (Raise e, w).
Proof. intros Hv. unfold Sync.add. unfold_m. by rewrite Hv. Qed.

Lemma sync_modify_invalid self id (info : dict pyval) w e :
  info <> [] ->
  Sync.validate_keys info (inr (Sync._datadef self)) false = Raise e ->
  Sync.modify self id info w = (Raise e, w).
Proof.
  intros Hne Hv. unfold Sync.modify. destruct info; [done|].
  unfold_m. by rewrite Hv.
Qed.

Lemma async_add_single aself (item : dict pyval) s :
  Async.validate_keys item (inr (Async._datadef aself)) true = Ok tt ->
  single_statement (Async.outside s) (Async.outside (snd (Async.add aself item s)))
    (raised (fst (Async.add aself item s))).
Proof.
  intros Hv. unfold Async.add. unfold_m. rewrite Hv.
  change (Async.validate_keys item (inr (Async._datadef aself)) true)
    with (Sync.validate_keys item (inr (Async._datadef aself)) true) in Hv.
  apply validate_full_ok in Hv.
  change Async.getitems with Sync.getitems.
  rewrite getitems_ok by (by apply keys_set_Forall).
  set (ps := map _ _).
  destruct s as [[c|] [d t]]; cbn [Async._conn Async.outside]; cbv beta iota.
  - pose proof (cursor_execute_single (Async.add_sql aself) ps
                  (mk_world d t) [] Engine.lastrowid eq_refl) as H.
    cbv zeta in H. cbn [disk trace] in H. rewrite app_nil_r in H.
    destruct (cursor_execute _ _ _) as [[cur|e] w']; exact H.
  - pose proof (cursor_execute_single (Async.add_sql aself) ps
                  (mk_world d t)
                  [Connect (Async._dbpath aself)] Engine.lastrowid eq_refl) as H.
    cbv zeta in H. cbn [disk trace] in *.
    destruct (cursor_execute _ _ _) as [[cur|e] w']; exact H.
Qed.

Lemma async_delete_single aself id s :
  single_statement (Async.outside s) (Async.outside (snd (Async.delete aself id s)))
    (raised (fst (Async.delete aself id s))).
Proof.
  unfold Async.delete. unfold_m.
  destruct s as [[c|] [d t]]; cbn [Async._conn Async.outside]; cbv beta iota.
  - pose proof (cursor_execute_single (Async.delete_sql aself) [PInt id]
                  (mk_world d t) [] (fun _ => tt) eq_refl) as H.
    cbv zeta in H. cbn [disk trace] in H. rewrite app_nil_r in H.
    destruct (cursor_execute _ _ _) as [[cur|e] w']; exact H.
  - pose proof (cursor_execute_single (Async.delete_sql aself) [PInt id]
                  (mk_world d t)
                  [Connect (Async._dbpath aself)] (fun _ => tt) eq_refl) as H.
    cbv zeta in H. cbn [disk trace] in *.
    destruct (cursor_execute _ _ _) as [[cur|e] w']; exact H.
Qed.

Lemma async_modify_single aself id (info : dict pyval) s :
  info <> [] ->
  Async.validate_keys info (inr (Async._datadef aself)) false = Ok tt ->
  single_statement (Async.outside s)
    (Async.outside (snd (Async.modify aself id info s)))
    (raised (fst (Async.modify aself id info s))).
Proof.
  intros Hne Hv. unfold Async.modify. destruct info as [|kv info]; [done|].
  unfold_m. rewrite Hv.
  destruct s as [[c|] [d t]]; cbn [Async._conn Async.outside]; cbv beta iota.
  - pose proof (cursor_execute_single (Async.modify_sql aself (kv :: info))
                  (Async.modify_params aself id (kv :: info))
                  (mk_world d t) [] (fun _ => tt) eq_refl) as H.
    cbv zeta in H. cbn [disk trace] in H. rewrite app_nil_r in H.
    destruct (cursor_execute _ _ _) as [[cur|e] w']; exact H.
  - pose proof (cursor_execute_single (Async.modify_sql aself (kv :: info))
                  (Async.modify_params aself id (kv :: info))
                  (mk_world d t)
                  [Connect (Async._dbpath aself)] (fun _ => tt) eq_refl) as H.
    cbv zeta in H. cbn [disk trace] in *.
    destruct (cursor_execute _ _ _) as [[cur|e] w']; exact H.
Qed.

Lemma async_add_invalid aself (item : dict pyval) s e :
  Async.validate_keys item (inr (Async._datadef aself)) true = Raise e ->
  Async.add aself item s = (Raise e, s).
Proof. intros Hv. unfold Async.add. unfold_m. by rewrite Hv. Qed.

Lemma async_modify_invalid aself id (info : dict pyval) s e :
  info <> [] ->
  Async.validate_keys info (inr (Async._datadef aself)) false = Raise e ->
  Async.modify aself id info s = (Raise e, s).
Proof.
  intros Hne Hv. unfold Async.modify. destruct info; [done|].
  unfold_m. by rewrite Hv.
Qed.

(** * The claims *)









(** C6, as stated, fails: [modify] with an empty change map is a mutating
    operation that executes no statement at all. *)
Lemma empty_modify_runs_no_statement :
  Sync.modify books_db 1 [] books_world1 = (Ok tt, books_world1)
  /\ ~ (exists b, single_statement books_world1
                    (snd (Sync.modify books_db 1 [] books_world1)) b).
Proof.
  split; [reflexivity|]. intros (b & sql & ps & H & _). cbn [Sync.modify ret snd] in H.
  apply (f_equal length) in H. rewrite length_app in H. simpl in H. lia.
Qed.

(** C6 (amended): in [add] and [modify] key validation comes first: when it
    raises, the operation raises the same error and the world is untouched
    (no connection, no statement, the tables as they were).  Each mutating
    operation executes at most one statement: [add] and a non-empty [modify]
    exactly one once validation has passed, [delete] exactly one, [modify]
    with an empty change map none; and after that one statement the tables
    are what the engine made of it, or, when it raised, what they were.  In
    both variants. *)
Theorem mutations_single_statement (self : Sync._DataBase)
  (aself : Async._AsyncDataBase) (item info : dict pyval) (item_id : Z)
  (w : world) (s : Async.state) :
  ((forall e, Sync.validate_keys item (inr (Sync._datadef self)) true = Raise e ->
              Sync.add self item w = (Raise e, w))
   /\ (Sync.validate_keys item (inr (Sync._datadef self)) true = Ok tt ->
       single_statement w (snd (Sync.add self item w))
         (raised (fst (Sync.add self item w))))
   /\ single_statement w (snd (Sync.delete self item_id w))
        (raised (fst (Sync.delete self item_id w)))
   /\ Sync.modify self item_id [] w = (Ok tt, w)
   /\ (info <> [] ->
       forall e, Sync.validate_keys info (inr (Sync._datadef self)) false = Raise e ->
                 Sync.modify self item_id info w = (Raise e, w))
   /\ (info <> [] ->
       Sync.validate_keys info (inr (Sync._datadef self)) false = Ok tt ->
       single_statement w (snd (Sync.modify self item_id info w))
         (raised (fst (Sync.modify self item_id info w)))))
  /\ ((forall e, Async.validate_keys item (inr (Async._datadef aself)) true = Raise e ->
                 Async.add aself item s = (Raise e, s))
      /\ (Async.validate_keys item (inr (Async._datadef aself)) true = Ok tt ->
          single_statement (Async.outside s)
            (Async.outside (snd (Async.add aself item s)))
            (raised (fst (Async.add aself item s))))
      /\ single_statement (Async.outside s)
           (Async.outside (snd (Async.delete aself item_id s)))
           (raised (fst (Async.delete aself item_id s)))
      /\ Async.modify aself item_id [] s = (Ok tt, s)
      /\ (info <> [] ->
          forall e, Async.validate_keys info (inr (Async._datadef aself)) false = Raise e ->
                    Async.modify aself item_id info s = (Raise e, s))
      /\ (info <> [] ->
          Async.validate_keys info (inr (Async._datadef aself)) false = Ok tt ->
          single_statement (Async.outside s)
            (Async.outside (snd (Async.modify aself item_id info s)))
            (raised (fst (Async.modify aself item_id info s))))).
Proof.
  split; repeat split.
  - intros e. apply sync_add_invalid.
  - apply sync_add_single.
  - apply sync_delete_single.
  - intros Hne e. by apply sync_modify_invalid.
  - apply sync_modify_single.
  - intros e. apply async_add_invalid.
  - apply async_add_single.
  - apply async_delete_single.
  - intros Hne e. by apply async_modify_invalid.
  - apply async_modify_single.
Qed.

(** ** The rendered statements *)

Lemma column_text_spec rd : Sync.column_text rd = spec_column rd.
Proof.
  unfold Sync.column_text, spec_column, join.
  destruct (unique rd), (nullable rd); cbn [app String.concat];
    rewrite ?app_assoc_s, ?app_nil_r_s; reflexivity.
Qed.




(** C3: for every mapping and reference key set, [validate_keys] with
    [fullmatch] raises the keys-validation failure exactly when the key set
    of the mapping differs from the reference key set; without [fullmatch]
    it raises exactly when some key of the mapping lies outside the
    reference key set, and the error then names the offending keys, each
    once and no other; in every other case it returns.  The cooperative
    variant validates the same way. *)
Theorem validate_keys_spec {A B} (d : dict A) (dt : TableDef + dict B) :
  let d_keys : gset string := list_to_set (dict_keys d) in
  let ref := reference_keys dt in
  ((exists msg, Sync.validate_keys d dt true = Raise (KeysValidationFailure msg))
   <-> d_keys <> ref)
  /\ (Sync.validate_keys d dt true = Ok tt <-> d_keys = ref)
  /\ ((exists msg, Sync.validate_keys d dt false = Raise (KeysValidationFailure msg))
      <-> exists k, k ∈ dict_keys d /\ k ∉ ref)
  /\ (Sync.validate_keys d dt false = Ok tt <-> forall k, k ∈ dict_keys d -> k ∈ ref)
  /\ (forall e, Sync.validate_keys d dt false = Raise e ->
      exists l, e = KeysValidationFailure ("unexpected keys: " +:+ join ", " l)
                /\ NoDup l /\ forall k, k ∈ l <-> k ∈ dict_keys d /\ k ∉ ref)
  /\ (forall fullmatch, Async.validate_keys d dt fullmatch
                        = Sync.validate_keys d dt fullmatch).
Proof.
  intros d_keys ref.
  assert (ref = match dt with
                | inl td => list_to_set (map name td)
                | inr m => list_to_set (dict_keys m)
                end) as Href by (by destruct dt).
  assert (d_keys ∖ ref <> ∅ <-> exists k, k ∈ dict_keys d /\ k ∉ ref) as Hne.
  { split.
    - intros H. apply set_choose_L in H as [k Hk].
      apply elem_of_difference in Hk as [Hk1 Hk2].
      exists k. split; [|done]. by apply elem_of_list_to_set in Hk1.
    - intros (k & Hk1 & Hk2) H.
      assert (k ∈ d_keys ∖ ref) as Hin.
      { apply elem_of_difference. split; [|done]. by apply elem_of_list_to_set. }
      rewrite H in Hin. by apply elem_of_empty in Hin. }
  unfold Sync.validate_keys. rewrite <- Href. fold d_keys.
  split; [|split; [|split; [|split; [|split]]]].
  - destruct (decide (d_keys = ref)) as [He|He].
    + rewrite bool_decide_eq_false_2 by (intros H; by apply H).
      split; [by intros [msg H]|done].
    + rewrite bool_decide_eq_true_2 by done. split; [done|]. by eexists.
  - destruct (decide (d_keys = ref)) as [He|He].
    + by rewrite bool_decide_eq_false_2 by (intros H; by apply H).
    + by rewrite bool_decide_eq_true_2 by done.
  - rewrite <- Hne. destruct (decide (d_keys ∖ ref = ∅)) as [He|He].
    + rewrite bool_decide_eq_false_2 by (intros H; by apply H).
      split; [by intros [msg H]|done].
    + rewrite bool_decide_eq_true_2 by done. split; [done|]. by eexists.
  - destruct (decide (d_keys ∖ ref = ∅)) as [He|He].
    + rewrite bool_decide_eq_false_2 by (intros H; by apply H).
      split; [|done]. intros _ k Hk.
      destruct (decide (k ∈ ref)) as [|Hn]; [done|].
      exfalso. apply (proj2 Hne); [|done]. by exists k.
    + rewrite bool_decide_eq_true_2 by done. split; [done|].
      intros H. apply Hne in He as (k & Hk1 & Hk2). destruct Hk2. by apply H.
  - intros e H. destruct (decide (d_keys ∖ ref = ∅)) as [He|He].
    + by rewrite bool_decide_eq_false_2 in H by (intros H'; by apply H').
    + rewrite bool_decide_eq_true_2 in H by done. injection H as <-.
      exists (elements (d_keys ∖ ref)). split; [done|].
      split; [apply NoDup_elements|].
      intros k. rewrite elem_of_elements, elem_of_difference.
      unfold d_keys. by rewrite elem_of_list_to_set.
  - done.
Qed.



(** C7: for every schema the text of the CREATE TABLE statement is the one
    [create table if not exists] template, listing in schema order one
    column per field, each made of the field's name, its mapped storage type
    ([str] to TEXT, [int] to INTEGER, [float] to REAL, [bytes] to BLOB), the
    token UNIQUE exactly when the field is unique and the tokens NOT NULL
    exactly when it is not nullable, followed by the column
    [id INTEGER PRIMARY KEY AUTOINCREMENT]; creating the table submits this
    one statement; and for a schema the engine can hold, the engine reads
    the text as the creation of exactly these columns.  The cooperative
    variant builds the same text. *)
Theorem create_table_statement_shape path td tname :
  let self := Sync.init_fields path td tname in
  let aself := Async.__init__ path td tname in
  Sync.create_table_sql self
  = NL +:+ sp16 +:+ "CREATE TABLE IF NOT EXISTS " +:+ tname +:+ " ("
    +:+ NL +:+ sp20 +:+ join ", " (map spec_column td) +:+ ","
    +:+ NL +:+ sp20 +:+ "id INTEGER PRIMARY KEY AUTOINCREMENT"
    +:+ NL +:+ sp16 +:+ ")"
    +:+ NL +:+ sp16
  /\ Async.create_table_sql aself = Sync.create_table_sql self
  /\ (type_to_sqlitetype Tstr = Some "TEXT"
      /\ type_to_sqlitetype Tint = Some "INTEGER"
      /\ type_to_sqlitetype Tfloat = Some "REAL"
      /\ type_to_sqlitetype Tbytes = Some "BLOB")
  /\ (forall w, statements (trace (snd (Sync._create_table self w)))
                = statements (trace w) ++ [Execute (Sync.create_table_sql self) []])
  /\ (forall s, statements (trace (Async.outside (snd (Async.create_table aself s))))
                = statements (trace (Async.outside s))
                  ++ [Execute (Async.create_table_sql aself) []])
  /\ (wf_schema td tname = true -> Forall (fun rd => type rd <> TNone) td ->
      Engine.parse (Engine.tokens (Sync.create_table_sql self))
      = Some (Engine.SCreate tname (map column_of td ++ [id_column]))).
Proof.
  intros self aself. split; [|split; [done|split; [done|split; [|split]]]].
  - unfold Sync.create_table_sql. cbn [Sync._table_name Sync._tabledef self Sync.init_fields].
    do 9 f_equal. apply map_ext. intros rd. apply column_text_spec.
  - intros w. unfold Sync._create_table. unfold_m. unfold cursor_execute.
    cbn [disk trace].
    destruct (Engine.execute _ _ _) as [e|[cur db]]; cbn [snd trace];
      rewrite !statements_app; cbn; by rewrite app_nil_r.
  - intros [[c|] [d t]]; unfold Async.create_table; unfold_m; unfold cursor_execute;
      cbn [Async._conn Async.outside disk trace];
      destruct (Engine.execute _ _ _) as [e|[cur db]];
      cbn [snd trace Async.outside]; rewrite ?statements_app; cbn;
      by rewrite ?app_nil_r.
  - intros Hwf Hty. by apply parse_create_sql.
Qed.

(** C10, as stated, fails: the engine built from a scalar schema argument
    raises when it creates its table (the column list of the statement
    starts with a comma), and no table is there afterwards. *)
Lemma scalar_schema_engine_fails :
  exists ctor,
    Sync.dbcls_factory (inr CScalar) "Numbers" None = Ok ctor
    /\ fst (ctor "n.db" (mk_world ∅ []))
       = Raise (StorageError (OperationalError "syntax error"))
    /\ ~ manages_id_table (snd (ctor "n.db" (mk_world ∅ []))) "Numbers".
Proof.
  eexists. split; [reflexivity|]. split; [by vm_compute|].
  intros (tb & Hdb & _). vm_compute in Hdb. discriminate.
Qed.

Lemma parse_create_empty path tname :
  Engine.is_ident tname = true ->
  Engine.parse (Engine.tokens (Sync.create_table_sql (Sync.init_fields path [] tname)))
  = None.
Proof.
  intros Ht. unfold Engine.tokens, Sync.create_table_sql.
  cbn [Sync._table_name Sync._tabledef Sync.init_fields map].
  rewrite !L_app. simpl. rewrite lex_ident by done. simpl. by rewrite Ht.
Qed.

(** C10 (amended): in both variants a schema argument that is neither a
    mapping nor an iterable raises no error and yields the empty schema;
    the CREATE TABLE statement rendered from it has an empty column list
    before the comma that precedes [id], the engine refuses it as a syntax
    error, and the tables are left as they were: no table is created. *)
Theorem scalar_schema_is_empty path tname (w : world) :
  Engine.is_ident tname = true ->
  Sync.TableDef_init CScalar = Ok []
  /\ Async.TableDef_init CScalar = Ok []
  /\ (exists w',
         Sync.__init__ path [] tname w
         = (Raise (StorageError (OperationalError "syntax error")), w')
         /\ disk w' = disk w)
  /\ (forall s, exists s',
         Async.__aenter__ (Async.__init__ path [] tname) s
         = (Raise (StorageError (OperationalError "syntax error")), s')
         /\ disk (Async.outside s') = disk (Async.outside s)).
Proof.
  intros Ht. split; [done|]. split; [done|]. split.
  - eexists. unfold Sync.__init__, Sync._create_table. unfold_m.
    unfold cursor_execute, Engine.execute. rewrite parse_create_empty by done.
    split; reflexivity.
  - intros [[c|] [d t]]; eexists;
      unfold Async.__aenter__, Async.create_table; unfold_m;
      unfold cursor_execute, Engine.execute;
      change (Async.create_table_sql (Async.__init__ path [] tname))
        with (Sync.create_table_sql (Sync.init_fields path [] tname));
      rewrite parse_create_empty by done; split; reflexivity.
Qed.

(** C10 witness: the class [Numbers] built from a scalar. *)
Lemma scalar_schema_is_empty_witness :
  exists w',
    Sync.__init__ "n.db" [] "Numbers" (mk_world ∅ [])
    = (Raise (StorageError (OperationalError "syntax error")), w')
    /\ disk w' = ∅.
Proof.
  apply (proj1 (proj2 (proj2 (scalar_schema_is_empty "n.db" "Numbers"
                                (mk_world ∅ []) eq_refl)))).
Defined.

(** ** Schema construction *)

(** C2: the blocking variant breaks the claim.  Built from row definitions
    it checks no name at all, and built from a field map it checks [id]
    only: the schemas below are constructed, reserved names included, where
    the cooperative variant raises the reserved-name error. *)
Theorem sync_schema_accepts_reserved_names :
  Sync.TableDef_init (CIterable [ERowDef (RowDef_default "id" Tint)])
  = Ok [RowDef_default "id" Tint]
  /\ Sync.TableDef_init (CIterable [ERowDef (RowDef_default "_fuzzy_match_" Tstr)])
     = Ok [RowDef_default "_fuzzy_match_" Tstr]
  /\ Sync.TableDef_init (CMapping [("_fuzzy_match_", Tstr)])
     = Ok [RowDef_default "_fuzzy_match_" Tstr]
  /\ Async.TableDef_init (CIterable [ERowDef (RowDef_default "id" Tint)])
     = Raise (NameError "name `id` is reserved for inner use")
  /\ Async.TableDef_init (CMapping [("_fuzzy_match_", Tstr)])
     = Raise (NameError "name `_fuzzy_match_` is reserved for inner use").
Proof. repeat split; reflexivity. Qed.

(** C9: the two variants do not accept the same schemas.  A sequence of row
    definitions that names [ID] is a schema for the blocking variant and a
    reserved-name error for the cooperative one. *)
Theorem variants_differ_on_schema :
  Sync.TableDef_init (CIterable [ERowDef (mk_RowDef "ID" Tint true false)])
  = Ok [mk_RowDef "ID" Tint true false]
  /\ Async.TableDef_init (CIterable [ERowDef (mk_RowDef "ID" Tint true false)])
     = Raise (NameError "name `ID` is reserved for inner use").
Proof. split; reflexivity. Qed.

Lemma async_from_mapping_ok self items td :
  Async.TableDef_from_mapping self items = Ok td ->
  Forall (fun rd => lower (name rd) ∉ Async.RESERVED_COLUMNS) self ->
  Forall (fun rd => lower (name rd) ∉ Async.RESERVED_COLUMNS) td.
Proof.
  revert self. induction items as [|[n t] items IH]; intros self H Hself.
  - by injection H as <-.
  - cbn [Async.TableDef_from_mapping] in H. case_bool_decide as Hn; [done|].
    apply (IH _ H). apply Forall_app. split; [done|]. by constructor.
Qed.

Lemma async_from_iterable_ok self l td :
  Async.TableDef_from_iterable self l = Ok td ->
  Forall (fun rd => lower (name rd) ∉ Async.RESERVED_COLUMNS) self ->
  Forall (fun rd => lower (name rd) ∉ Async.RESERVED_COLUMNS) td.
Proof.
  revert self. induction l as [|[rd|ty] l IH]; intros self H Hself.
  - by injection H as <-.
  - cbn [Async.TableDef_from_iterable] in H. case_bool_decide as Hn; [done|].
    apply (IH _ H). apply Forall_app. split; [done|]. by constructor.
  - done.
Qed.

(** X1: the cooperative variant keeps the invariant of C2: a schema it has
    constructed holds no field whose lowercased name is reserved. *)
Theorem async_schema_has_no_reserved_name (c : cdef) (td : TableDef) :
  Async.TableDef_init c = Ok td ->
  Forall (fun rd => lower (name rd) ∉ Async.RESERVED_COLUMNS) td.
Proof.
  destruct c as [m|l|]; cbn [Async.TableDef_init]; intros H.
  - by apply (async_from_mapping_ok [] m).
  - by apply (async_from_iterable_ok [] l).
  - by injection H as <-.
Qed.

Lemma async_schema_has_no_reserved_name_witness :
  Forall (fun rd => lower (name rd) ∉ Async.RESERVED_COLUMNS) books_schema.
Proof.
  apply (async_schema_has_no_reserved_name
           (CMapping [("title", Tstr); ("pages", Tint)]) books_schema eq_refl).
Defined.

(** X2: from a field map, the cooperative variant raises the reserved-name
    error whenever some name, lowercased, is reserved. *)
Theorem async_mapping_rejects_reserved (m : dict pytype) :
  Exists (fun kv => lower (fst kv) ∈ Async.RESERVED_COLUMNS) m ->
  exists msg, Async.TableDef_init (CMapping m) = Raise (NameError msg).
Proof.
  cbn [Async.TableDef_init]. generalize ([] : TableDef).
  induction m as [|[n t] m IH]; intros self H.
  - by apply Exists_nil in H.
  - cbn [Async.TableDef_from_mapping]. case_bool_decide as Hn; [by eexists|].
    apply Exists_cons in H as [H|H]; [done|]. by apply IH.
Qed.

Lemma async_mapping_rejects_reserved_witness :
  exists msg,
    Async.TableDef_init (CMapping [("title", Tstr); ("Id", Tint)])
    = Raise (NameError msg).
Proof.
  apply (async_mapping_rejects_reserved [("title", Tstr); ("Id", Tint)]).
  apply Exists_cons_tl, Exists_cons_hd. by vm_compute.
Defined.

(** X3: apart from schema construction the variants compute the same: key
    validation, the text and parameters of every statement, and the
    rendering of result rows are equal. *)
Theorem variants_agree_on_statements {A B} (a : Async._AsyncDataBase)
  (d : dict A) (dt : TableDef + dict B) (fullmatch fuzzy : bool)
  (item_id : Z) (info : dict pyval) (keys : list string) (rows : list (list pyval)) :
  Async.validate_keys d dt fullmatch = Sync.validate_keys d dt fullmatch
  /\ Async.create_table_sql a = Sync.create_table_sql (as_sync a)
  /\ Async.add_sql a = Sync.add_sql (as_sync a)
  /\ Async.getitems info keys = Sync.getitems info keys
  /\ Async.delete_sql a = Sync.delete_sql (as_sync a)
  /\ Async.modify_sql a info = Sync.modify_sql (as_sync a) info
  /\ Async.modify_params a item_id info = Sync.modify_params (as_sync a) item_id info
  /\ Async.search_sql a fuzzy info = Sync.search_sql (as_sync a) fuzzy info
  /\ Async.search_params a fuzzy info = Sync.search_params (as_sync a) fuzzy info
  /\ Async.render_rows keys rows = Sync.render_rows keys rows.
Proof. repeat split; reflexivity. Qed.



(** * Further properties of the code *)

(** ** Schema construction in the blocking variant *)

Lemma sync_from_mapping_eq self (m : dict pytype) :
  Sync.TableDef_from_mapping self m
  = if existsb (fun kv => String.eqb (lower (fst kv)) "id") m
    then Raise (NameError "name `id` is reserved for inner use")
    else Ok (self ++ map (fun kv => RowDef_default (fst kv) (snd kv)) m).
Proof.
  revert self. induction m as [|[n t] m IH]; intros self.
  - cbn. by rewrite app_nil_r.
  - cbn [Sync.TableDef_from_mapping existsb fst snd map].
    destruct (String.eqb (lower n) "id"); [done|].
    rewrite IH. cbn [orb]. destruct (existsb _ m); [done|].
    by rewrite <- app_assoc.
Qed.

(** X5: in the blocking variant, construction of a schema from a field map
    raises the reserved-name error exactly when some key, lowercased, is
    [id]; otherwise the schema holds one row definition per item of the map,
    in the order of the map, with the name and type of the item and both
    flags off. *)
Theorem sync_mapping_schema (m : dict pytype) :
  Sync.TableDef_init (CMapping m)
  = if existsb (fun kv => String.eqb (lower (fst kv)) "id") m
    then Raise (NameError "name `id` is reserved for inner use")
    else Ok (map (fun kv => RowDef_default (fst kv) (snd kv)) m).
Proof. apply (sync_from_mapping_eq []). Qed.

Lemma sync_from_iterable_ok self l td :
  Sync.TableDef_from_iterable self l = Ok td
  <-> td = self ++ omap (fun e => match e with
                                  | ERowDef rd => Some rd
                                  | EOther _ => None
                                  end) l
      /\ Forall (fun e => exists rd, e = ERowDef rd) l.
Proof.
  revert self. induction l as [|[rd|ty] l IH]; intros self.
  - cbn. rewrite app_nil_r. split; [intros [= <-]; by split|by intros [-> _]].
  - cbn [Sync.TableDef_from_iterable omap list_omap]. rewrite IH.
    rewrite <- app_assoc. cbn [app].
    split; intros [H1 H2]; (split; [done|]).
    + constructor; [by eexists|done].
    + by apply Forall_cons in H2 as [_ H2].
  - cbn. split; [done|]. intros [_ H]. apply Forall_cons in H as [[rd H] _]. done.
Qed.

Lemma sync_from_iterable_raise self l e :
  Sync.TableDef_from_iterable self l = Raise e ->
  exists ty, EOther ty ∈ l /\ e = ValueError ("expect RowDef, got " +:+ ty).
Proof.
  revert self. induction l as [|[rd|ty] l IH]; intros self H.
  - done.
  - cbn in H. apply IH in H as (ty & H1 & H2). exists ty. split; [by right|done].
  - cbn in H. injection H as <-. exists ty. split; [by left|done].
Qed.

(** X6: in the blocking variant, construction of a schema from an iterable
    succeeds exactly when every element is a row definition, and the schema
    is then these row definitions, unchanged and in order (no name is
    checked); when it raises, the error is the [ValueError] that names the
    type of an element that is no row definition. *)
Theorem sync_iterable_schema (l : list pyelem) :
  (forall td, Sync.TableDef_init (CIterable l) = Ok td <-> l = map ERowDef td)
  /\ (forall e, Sync.TableDef_init (CIterable l) = Raise e ->
        exists ty, EOther ty ∈ l /\ e = ValueError ("expect RowDef, got " +:+ ty)).
Proof.
  split.
  - intros td. cbn [Sync.TableDef_init]. rewrite sync_from_iterable_ok. cbn [app].
    split.
    + intros [-> H]. induction H as [|e l [rd ->] H IH]; [done|].
      cbn. by rewrite <- IH.
    + intros ->. split.
      * induction td as [|rd td IH]; [done|]. cbn. by rewrite <- IH.
      * apply Forall_forall. intros e He.
        apply list_elem_of_fmap in He as (rd & -> & _). by eexists.
  - intros e. apply sync_from_iterable_raise.
Qed.

Lemma reserved_id n :
  String.eqb (lower n) "id" = true -> lower n ∈ Async.RESERVED_COLUMNS.
Proof.
  intros H. apply String.eqb_eq in H. rewrite H. unfold Async.RESERVED_COLUMNS.
  apply elem_of_union_l. by apply elem_of_singleton.
Qed.

Lemma async_mapping_sync self (m : dict pytype) td :
  Async.TableDef_from_mapping self m = Ok td -> Sync.TableDef_from_mapping self m = Ok td.
Proof.
  revert self. induction m as [|[n t] m IH]; intros self H; [done|].
  cbn [Async.TableDef_from_mapping] in H. cbn [Sync.TableDef_from_mapping].
  case_bool_decide as Hn; [done|].
  destruct (String.eqb (lower n) "id") eqn:E.
  - by apply reserved_id in E.
  - by apply IH.
Qed.

Lemma async_iterable_sync self l td :
  Async.TableDef_from_iterable self l = Ok td -> Sync.TableDef_from_iterable self l = Ok td.
Proof.
  revert self. induction l as [|[rd|ty] l IH]; intros self H; [done| |done].
  cbn [Async.TableDef_from_iterable] in H. cbn [Sync.TableDef_from_iterable].
  case_bool_decide as Hn; [done|]. by apply IH.
Qed.

(** X7: every schema argument the cooperative variant accepts, the blocking
    variant accepts too, and it constructs the same schema. *)
Theorem async_schema_is_sync_schema (c : cdef) (td : TableDef) :
  Async.TableDef_init c = Ok td -> Sync.TableDef_init c = Ok td.
Proof.
  destruct c as [m|l|]; cbn [Async.TableDef_init Sync.TableDef_init].
  - apply async_mapping_sync.
  - apply async_iterable_sync.
  - done.
Qed.

Lemma async_schema_is_sync_schema_witness :
  Sync.TableDef_init (CMapping [("title", Tstr); ("pages", Tint)]) = Ok books_schema.
Proof.
  apply (async_schema_is_sync_schema (CMapping [("title", Tstr); ("pages", Tint)])
           books_schema eq_refl).
Defined.

(** ** The field map of a schema *)

Lemma as_dict_snoc td rd :
  TableDef_as_dict (td ++ [rd]) = dict_set (TableDef_as_dict td) (name rd) (type rd).
Proof. unfold TableDef_as_dict. by rewrite fold_left_app. Qed.

Lemma dict_keys_set {V} (d : dict V) k v :
  dict_keys (dict_set d k v)
  = if bool_decide (k ∈ dict_keys d) then dict_keys d else dict_keys d ++ [k].
Proof.
  induction d as [|[k' v'] d IH]; [done|].
  cbn [dict_set dict_keys map fst]. destruct (String.eqb k' k) eqn:E.
  - apply String.eqb_eq in E as ->. rewrite bool_decide_eq_true_2 by left. done.
  - apply String.eqb_neq in E. cbn [map fst]. fold (dict_keys (dict_set d k v)).
    rewrite IH. fold (dict_keys d).
    destruct (decide (k ∈ dict_keys d)) as [Hin|Hin].
    + rewrite !bool_decide_eq_true_2; [done| by right | done].
    + rewrite !bool_decide_eq_false_2; [done| | done].
      intros H. apply elem_of_cons in H as [->|H]; done.
Qed.

(** X8: in the field map of a schema, a name maps to the type of the last
    row definition that bears it (a later row definition overwrites an
    earlier one of the same name), and a name no row definition bears is
    absent. *)
Theorem as_dict_last_wins (td : TableDef) (k : string) :
  dict_get (TableDef_as_dict td) k = last_type td k.
Proof.
  unfold last_type.
  induction td as [|rd td IH] using rev_ind; [done|].
  rewrite as_dict_snoc, dict_get_set, filter_app.
  destruct (String.eqb (name rd) k) eqn:E.
  - apply String.eqb_eq in E. rewrite filter_cons_True by done.
    cbn [filter list_filter]. by rewrite last_snoc.
  - apply String.eqb_neq in E. rewrite filter_cons_False by done.
    cbn. by rewrite app_nil_r.
Qed.

Lemma as_dict_keys_acc (td : TableDef) (d : dict pytype) :
  dict_keys (fold_left (fun result r => dict_update result (RowDef_as_dict r)) td d)
  = dict_keys d ++ first_occurrences (list_to_set (dict_keys d)) (map name td).
Proof.
  revert d. induction td as [|rd td IH]; intros d.
  - cbn. by rewrite app_nil_r.
  - cbn [fold_left map first_occurrences]. rewrite IH.
    change (dict_update d (RowDef_as_dict rd)) with (dict_set d (name rd) (type rd)).
    rewrite dict_keys_set.
    destruct (decide (name rd ∈ dict_keys d)) as [Hin|Hin].
    + rewrite (bool_decide_eq_true_2 _ Hin).
      assert (name rd ∈ (list_to_set (dict_keys d) : gset string)) as Hs
        by (apply elem_of_list_to_set; exact Hin).
      by rewrite (bool_decide_eq_true_2 _ Hs).
    + rewrite (bool_decide_eq_false_2 _ Hin).
      assert (name rd ∉ (list_to_set (dict_keys d) : gset string)) as Hs
        by (rewrite elem_of_list_to_set; exact Hin).
      rewrite (bool_decide_eq_false_2 _ Hs).
      rewrite <- app_assoc. cbn [app]. do 3 f_equal.
      rewrite list_to_set_app_L, list_to_set_singleton_L. apply (comm_L (∪)).
Qed.

Lemma first_occurrences_spec seen l :
  NoDup (first_occurrences seen l)
  /\ forall k, k ∈ first_occurrences seen l <-> k ∈ l /\ k ∉ seen.
Proof.
  revert seen. induction l as [|x l IH]; intros seen.
  - split; [constructor|]. intros k. cbn.
    split; [by intros ?%elem_of_nil|]. by intros [?%elem_of_nil _].
  - cbn [first_occurrences]. destruct (decide (x ∈ seen)) as [Hin|Hin].
    + rewrite bool_decide_eq_true_2 by done. destruct (IH seen) as [H1 H2].
      split; [done|]. intros k. rewrite H2, elem_of_cons. split.
      * intros [H3 H4]. split; [by right|done].
      * intros [[->|H3] H4]; done.
    + rewrite bool_decide_eq_false_2 by done. destruct (IH ({[x]} ∪ seen)) as [H1 H2].
      split.
      * constructor; [|done]. rewrite H2. intros [_ H3]. apply H3.
        apply elem_of_union_l. by apply elem_of_singleton.
      * intros k. rewrite !elem_of_cons, H2. split.
        -- intros [->|[H3 H4]]; [by split; [left|]|]. split; [by right|].
           intros H5. apply H4. by apply elem_of_union_r.
        -- intros [[->|H3] H4]; [by left|].
           destruct (decide (k = x)) as [->|Hne]; [by left|]. right. split; [done|].
           intros H5. apply elem_of_union in H5 as [H5|H5]; [|done].
           by apply elem_of_singleton in H5.
Qed.

Lemma as_dict_keys_eq (td : TableDef) :
  dict_keys (TableDef_as_dict td) = first_occurrences ∅ (map name td).
Proof. unfold TableDef_as_dict. by rewrite as_dict_keys_acc. Qed.

Lemma as_dict_keys_elem (td : TableDef) k :
  k ∈ dict_keys (TableDef_as_dict td) <-> k ∈ map name td.
Proof.
  rewrite as_dict_keys_eq.
  destruct (first_occurrences_spec ∅ (map name td)) as [_ H2].
  rewrite H2. split; [by intros [H _]|].
  intros H. split; [done|]. apply not_elem_of_empty.
Qed.

(** X9: the keys of the field map of a schema are the names of its row
    definitions, each once, in the order of their first occurrence; so the
    field map has fewer keys than the schema has row definitions when a
    name occurs twice. *)
Theorem as_dict_keys_first_occurrence (td : TableDef) :
  dict_keys (TableDef_as_dict td) = first_occurrences ∅ (map name td)
  /\ NoDup (dict_keys (TableDef_as_dict td))
  /\ (forall k, k ∈ dict_keys (TableDef_as_dict td) <-> k ∈ map name td).
Proof.
  split; [apply as_dict_keys_eq|]. split; [|apply as_dict_keys_elem].
  rewrite as_dict_keys_eq. apply first_occurrences_spec.
Qed.

Lemma fields_defaults (m : dict pytype) :
  fields (map (fun kv => RowDef_default (fst kv) (snd kv)) m) = m.
Proof.
  unfold fields. rewrite map_map. cbn. induction m as [|[n t] m IH]; [done|].
  cbn. by rewrite IH.
Qed.

Lemma names_defaults (m : dict pytype) :
  map name (map (fun kv => RowDef_default (fst kv) (snd kv)) m) = dict_keys m.
Proof. rewrite map_map. done. Qed.

Lemma sync_mapping_inv (m : dict pytype) td :
  Sync.TableDef_init (CMapping m) = Ok td ->
  td = map (fun kv => RowDef_default (fst kv) (snd kv)) m /\ "id" ∉ dict_keys m.
Proof.
  cbn [Sync.TableDef_init]. rewrite (sync_from_mapping_eq []).
  destruct (existsb _ m) eqn:E; [done|]. intros [= <-]. split; [done|].
  intros Hin. apply list_elem_of_fmap in Hin as ([n t] & Hn & Hin). cbn in Hn. subst n.
  assert (existsb (fun kv : string * pytype => String.eqb (lower (fst kv)) "id") m = true).
  { apply existsb_exists. exists ("id", t). split; [by apply list_elem_of_In|done]. }
  congruence.
Qed.

Lemma mapping_fields_ok (m : dict pytype) td :
  Sync.TableDef_init (CMapping m) = Ok td -> NoDup (dict_keys m) ->
  TableDef_as_dict td = m /\ dict_set (TableDef_as_dict td) "id" Tint = m ++ [("id", Tint)].
Proof.
  intros H Hnd. apply sync_mapping_inv in H as [-> Hid].
  rewrite as_dict_nodup by (by rewrite names_defaults).
  rewrite fields_defaults. split; [done|]. by apply dict_set_fresh.
Qed.

(** X10: for a field map (a mapping: its keys are distinct), the class that
    [dbcls_factory] returns builds engine objects whose schema is one
    default row definition per item, whose field map is the mapping itself,
    whose field map with id is the mapping followed by [id: int], whose
    table name is [table_name], or [cls_name] when that is omitted, and
    whose path is the one passed to the constructor. *)
Theorem factory_field_map (m : dict pytype) (cls_name : string)
  (table_name : option string) :
  NoDup (dict_keys m) ->
  (forall ctor, Sync.dbcls_factory (inr (CMapping m)) cls_name table_name = Ok ctor ->
     forall path w db w', ctor path w = (Ok db, w') ->
       Sync._tabledef db = map (fun kv => RowDef_default (fst kv) (snd kv)) m
       /\ Sync._datadef db = m
       /\ Sync._datadef_with_id db = m ++ [("id", Tint)]
       /\ Sync._table_name db = default cls_name table_name
       /\ Sync._dbpath db = path)
  /\ (forall ctor, Async.dbcls_factory (inr (CMapping m)) cls_name table_name = Ok ctor ->
        forall path,
          Async._tabledef (ctor path) = map (fun kv => RowDef_default (fst kv) (snd kv)) m
          /\ Async._datadef (ctor path) = m
          /\ Async._datadef_with_id (ctor path) = m ++ [("id", Tint)]
          /\ Async._table_name (ctor path) = default cls_name table_name
          /\ Async._dbpath (ctor path) = path).
Proof.
  intros Hnd. split.
  - intros ctor H path w db w' Hrun. unfold Sync.dbcls_factory in H.
    destruct (Sync.TableDef_init (CMapping m)) as [td|e] eqn:E; [|done].
    cbn [obind] in H. injection H as <-.
    destruct (mapping_fields_ok m td E Hnd) as [H1 H2].
    apply sync_mapping_inv in E as [E _].
    unfold Sync.__init__, bind, ret in Hrun.
    destruct (Sync._create_table _ w) as [[[]|e] w1]; [|done].
    injection Hrun as <- <-. unfold Sync.init_fields.
    cbn [Sync._tabledef Sync._datadef Sync._datadef_with_id Sync._table_name Sync._dbpath].
    by rewrite H2, H1.
  - intros ctor H path. unfold Async.dbcls_factory in H.
    destruct (Async.TableDef_init (CMapping m)) as [td|e] eqn:E; [|done].
    cbn [obind] in H. injection H as <-.
    apply (async_mapping_sync [] m td) in E.
    destruct (mapping_fields_ok m td E Hnd) as [H1 H2].
    apply sync_mapping_inv in E as [E _].
    unfold Async.__init__.
    cbn [Async._tabledef Async._datadef Async._datadef_with_id Async._table_name
         Async._dbpath].
    by rewrite H2, H1.
Qed.

Lemma factory_field_map_witness :
  exists ctor,
    Async.dbcls_factory (inr (CMapping [("title", Tstr); ("pages", Tint)])) "BookDB" None
    = Ok ctor
    /\ Async._datadef (ctor "books.db") = [("title", Tstr); ("pages", Tint)]
    /\ Async._table_name (ctor "books.db") = "BookDB".
Proof.
  eexists. split; [reflexivity|].
  destruct (factory_field_map [("title", Tstr); ("pages", Tint)] "BookDB" None)
    as [_ H].
  - apply (bool_decide_unpack (NoDup (dict_keys [("title", Tstr); ("pages", Tint)]))).
    by vm_compute.
  - destruct (H _ eq_refl "books.db") as (_ & H2 & _ & H4 & _). split; [exact H2|exact H4].
Defined.

(** X11: the type mapper fails (returns [None]) exactly on a type that is
    none of [str], [int], [float], [bytes] and [None]; schema construction
    does not look at types, and the column of a field of such a type is
    rendered with the word [None] as its storage type. *)
Theorem type_mapper_fails_on_other_types :
  (forall t, type_to_sqlitetype t = None <-> exists n, t = Tother n)
  /\ (forall rd, type_to_sqlitetype (type rd) = None ->
        Sync.column_text rd
        = (name rd +:+ " None") +:+ (if unique rd then " UNIQUE" else "")
          +:+ (if nullable rd then "" else " NOT NULL"))
  /\ (forall n tn, String.eqb (lower n) "id" = false ->
        Sync.TableDef_init (CMapping [(n, Tother tn)])
        = Ok [RowDef_default n (Tother tn)]).
Proof.
  split; [|split].
  - intros t. split.
    + destruct t; try discriminate. intros _. by eexists.
    + by intros [n ->].
  - intros rd H. unfold Sync.column_text. by rewrite H.
  - intros n tn H. rewrite sync_mapping_schema. cbn [existsb fst]. by rewrite H.
Qed.

(** ** The statements of [add] and [modify] *)

Lemma as_dict_keys_set td :
  (list_to_set (dict_keys (TableDef_as_dict td)) : gset string) = list_to_set (map name td).
Proof.
  apply set_eq. intros k. rewrite !elem_of_list_to_set. apply as_dict_keys_elem.
Qed.

Lemma getitems_Forall2 (item : dict pyval) ks :
  Forall (fun k => k ∈ dict_keys item) ks ->
  Forall2 (fun k v => dict_get item k = Some v) ks
    (map (fun k => default PNone (dict_get item k)) ks).
Proof.
  induction 1 as [|k ks Hk _ IH]; [constructor|].
  cbn [map]. constructor; [|done].
  destruct (dict_get_is_Some item k Hk) as [v ->]. done.
Qed.

(** X12: for every schema and every record whose key set is the set of the
    schema's names, [add] opens the connection and submits the one INSERT
    statement, bound to one value per key of the field map, in the order of
    the field map (not of the record), each the record's value under that
    key; for identifier names the engine reads the text as the insertion of
    these columns with as many placeholders as bound values. *)
Theorem insert_statement_shape path td tname (item : dict pyval) (w : world)
  (s : Async.state) :
  (list_to_set (dict_keys item) : gset string) = list_to_set (map name td) ->
  let self := Sync.init_fields path td tname in
  let aself := Async.__init__ path td tname in
  let keys := dict_keys (TableDef_as_dict td) in
  let ps := map (fun k => default PNone (dict_get item k)) keys in
  Forall2 (fun k v => dict_get item k = Some v) keys ps
  /\ trace (snd (Sync.add self item w))
     = trace w ++ [Connect path; Execute (Sync.add_sql self) ps]
  /\ trace (Async.outside (snd (Async.add aself item s)))
     = trace (Async.outside s) ++ opened path s ++ [Execute (Sync.add_sql self) ps]
  /\ (Engine.is_ident tname = true -> td <> [] ->
      Forall (fun rd => Engine.is_ident (name rd) = true) td ->
      Engine.parse (Engine.tokens (Sync.add_sql self))
      = Some (Engine.SInsert tname keys (length ps))).
Proof.
  intros Hk self aself keys ps.
  assert ((list_to_set (dict_keys item) : gset string)
          = list_to_set (dict_keys (TableDef_as_dict td))) as Hk'.
  { by rewrite as_dict_keys_set. }
  assert (Forall (fun k => k ∈ dict_keys item) keys) as Hin by (by apply keys_set_Forall).
  split; [by apply getitems_Forall2|]. split; [|split].
  - unfold Sync.add. unfold_m.
    rewrite (proj2 (validate_full_ok item (Sync._datadef self)) Hk').
    cbn [Sync._datadef self Sync.init_fields]. rewrite getitems_ok by done.
    unfold cursor_execute. cbn [disk trace Sync._dbpath].
    destruct (Engine.execute _ _ _) as [e|[cur db]]; cbn [snd trace];
      by rewrite <- app_assoc.
  - unfold Async.add. unfold_m.
    change (@Async.validate_keys) with (@Sync.validate_keys).
    change Async.getitems with Sync.getitems.
    rewrite (proj2 (validate_full_ok item (Async._datadef aself)) Hk').
    cbn [Async._datadef aself Async.__init__]. rewrite getitems_ok by done.
    change (Async.add_sql (Async.__init__ path td tname)) with (Sync.add_sql self).
    destruct s as [[c|] [d t]]; cbn [Async._conn Async.outside opened Async._dbpath];
      unfold cursor_execute; cbn [disk trace];
      destruct (Engine.execute _ _ _) as [e|[cur db]]; cbn [snd trace Async.outside];
      by rewrite <- ?app_assoc.
  - intros Ht Htd Hid. unfold ps. rewrite length_map.
    assert (length keys = length (Sync._datadef self)) as ->
      by (unfold keys, dict_keys; by rewrite length_map).
    apply parse_add_sql; [done| |].
    + cbn [Sync._datadef self Sync.init_fields]. intros E.
      destruct td as [|rd td']; [done|].
      assert (name rd ∈ dict_keys (TableDef_as_dict (rd :: td'))) as Hrd.
      { apply as_dict_keys_elem. by left. }
      rewrite E in Hrd. by apply elem_of_nil in Hrd.
    + apply Forall_forall. intros k Hk0.
      cbn [Sync._datadef self Sync.init_fields] in Hk0.
      apply as_dict_keys_elem in Hk0.
      apply list_elem_of_fmap in Hk0 as (rd & -> & Hrd).
      rewrite Forall_forall in Hid. by apply Hid.
Qed.

Lemma insert_statement_shape_witness :
  trace (snd (Sync.add books_db hello books_world))
  = trace books_world
    ++ [Connect "books.db";
        Execute (Sync.add_sql books_db) [PStr "Hello World"; PInt 3]].
Proof.
  apply (insert_statement_shape "books.db" books_schema "books" hello books_world
           (Async.mk_state None books_world)).
  by vm_compute.
Defined.

Lemma dict_get_perm {V} (d d' : dict V) k :
  d ≡ₚ d' -> NoDup (dict_keys d) -> dict_get d k = dict_get d' k.
Proof.
  intros Hp Hnd. rewrite <- !list_to_map_dict_get.
  by rewrite (list_to_map_proper (M := gmap string) d d' Hnd Hp).
Qed.

Lemma getitems_perm (item item' : dict pyval) ks :
  item ≡ₚ item' -> NoDup (dict_keys item) ->
  Sync.getitems item ks = Sync.getitems item' ks.
Proof.
  intros Hp Hnd. induction ks as [|k ks IH]; [done|].
  cbn [Sync.getitems]. unfold Sync.getitem. rewrite (dict_get_perm item item' k Hp Hnd).
  by rewrite IH.
Qed.

Lemma validate_perm {A B} (d d' : dict A) (dt : TableDef + dict B) fullmatch :
  d ≡ₚ d' -> Sync.validate_keys d dt fullmatch = Sync.validate_keys d' dt fullmatch.
Proof.
  intros Hp. unfold Sync.validate_keys.
  assert ((list_to_set (dict_keys d) : gset string) = list_to_set (dict_keys d')) as ->.
  { apply list_to_set_perm_L. unfold dict_keys. by rewrite Hp. }
  done.
Qed.

(** X13: [add] does not depend on the order of the record's keys: two
    records with the same items in a different order give the same result
    and the same effects, in both variants. *)
Theorem add_ignores_key_order (self : Sync._DataBase) (aself : Async._AsyncDataBase)
  (item item' : dict pyval) :
  item ≡ₚ item' -> NoDup (dict_keys item) ->
  (forall w, Sync.add self item w = Sync.add self item' w)
  /\ (forall s, Async.add aself item s = Async.add aself item' s).
Proof.
  intros Hp Hnd. split.
  - intros w. unfold Sync.add.
    rewrite (validate_perm item item' _ true Hp).
    by rewrite (getitems_perm item item' _ Hp Hnd).
  - intros s. unfold Async.add.
    change (@Async.validate_keys) with (@Sync.validate_keys).
    change Async.getitems with Sync.getitems.
    rewrite (validate_perm item item' _ true Hp).
    by rewrite (getitems_perm item item' _ Hp Hnd).
Qed.

Lemma add_ignores_key_order_witness :
  Sync.add books_db hello books_world
  = Sync.add books_db [("title", PStr "Hello World"); ("pages", PInt 3)] books_world.
Proof.
  apply (add_ignores_key_order books_db books_adb hello
           [("title", PStr "Hello World"); ("pages", PInt 3)]).
  - apply perm_swap.
  - apply (bool_decide_unpack (NoDup (dict_keys hello))). by vm_compute.
Defined.

(** X14: whatever the engine object, the record and the state of the
    database, [add] ends in one of three ways: it returns; it raises the
    keys-validation failure, and then nothing has happened (no connection,
    no statement); or it raises an error of the storage engine.  The lookup
    [item[k]] never raises: validation has made every key present. *)
Theorem add_raises_only (self : Sync._DataBase) (aself : Async._AsyncDataBase)
  (item : dict pyval) (w : world) (s : Async.state) :
  match Sync.add self item w with
  | (Ok _, _) => True
  | (Raise e, w') =>
      (exists msg, e = KeysValidationFailure msg /\ w' = w)
      \/ (exists se, e = StorageError se)
  end
  /\ match Async.add aself item s with
     | (Ok _, _) => True
     | (Raise e, s') =>
         (exists msg, e = KeysValidationFailure msg /\ s' = s)
         \/ (exists se, e = StorageError se)
     end.
Proof.
  split.
  - unfold Sync.add. unfold_m.
    destruct (Sync.validate_keys item (inr (Sync._datadef self)) true) as [[]|e0] eqn:V.
    + apply validate_full_ok in V.
      rewrite getitems_ok by (by apply keys_set_Forall).
      unfold cursor_execute. cbn [disk trace].
      destruct (Engine.execute _ _ _) as [se|[cur db]]; [|done].
      right. by eexists.
    + destruct (validate_outcome item (inr (Sync._datadef self)) true) as [V'|[msg V']];
        [congruence|].
      rewrite V' in V. injection V as <-. left. by eexists.
  - unfold Async.add. unfold_m.
    change (@Async.validate_keys) with (@Sync.validate_keys).
    change Async.getitems with Sync.getitems.
    destruct (Sync.validate_keys item (inr (Async._datadef aself)) true) as [[]|e0] eqn:V.
    + apply validate_full_ok in V.
      rewrite getitems_ok by (by apply keys_set_Forall).
      destruct s as [[c|] [d t]]; cbn [Async._conn Async.outside];
        unfold cursor_execute; cbn [disk trace];
        (destruct (Engine.execute _ _ _) as [se|[cur db]]; [|done]);
        right; by eexists.
    + destruct (validate_outcome item (inr (Async._datadef aself)) true) as [V'|[msg V']];
        [congruence|].
      rewrite V' in V. injection V as <-. left. by eexists.
Qed.

(** X15: for every non-empty change map, the statement of [modify] is
    [UPDATE table SET k1 = ?, ..., kn = ? WHERE id = ?], with one assignment
    per item of the change map in the order of the map and no comma after
    the last one, bound to the values of the map followed by the id; for
    identifier names the engine reads it as the update of these columns in
    the rows with that id.  The cooperative variant builds the same text
    and parameters. *)
Theorem update_statement_shape path td tname (item_id : Z) (info : dict pyval) :
  let self := Sync.init_fields path td tname in
  let aself := Async.__init__ path td tname in
  info <> [] ->
  Sync.modify_sql self info
  = ("UPDATE " +:+ tname +:+ " SET ") +:+ join ", " (map set_text info)
    +:+ " WHERE id = ?"
  /\ Sync.modify_params self item_id info = map snd info ++ [PInt item_id]
  /\ (Engine.is_ident tname = true ->
      Forall (fun k => Engine.is_ident k = true) (dict_keys info) ->
      Engine.parse (Engine.tokens (Sync.modify_sql self info))
      = Some (Engine.SUpdate tname (dict_keys info) [Engine.CEq "id"]))
  /\ Async.modify_sql aself info = Sync.modify_sql self info
  /\ Async.modify_params aself item_id info = Sync.modify_params self item_id info.
Proof.
  intros self aself Hne. split; [by apply (modify_sql_eq self)|].
  split; [apply modify_params_eq|]. split; [|done].
  intros Ht Hk. by apply (parse_modify_sql self).
Qed.

Lemma update_statement_shape_witness :
  Sync.modify_sql books_db [("pages", PInt 7); ("title", PStr "B")]
  = "UPDATE books SET pages = ?, title = ? WHERE id = ?"
  /\ Sync.modify_params books_db 2 [("pages", PInt 7); ("title", PStr "B")]
     = [PInt 7; PStr "B"; PInt 2].
Proof.
  pose proof (update_statement_shape "books.db" books_schema "books" 2
                [("pages", PInt 7); ("title", PStr "B")]) as H.
  cbv zeta in H. destruct H as (H1 & H2 & _); [done|].
  split; [exact H1|exact H2].
Defined.

(** ** What [search] does and returns *)

Lemma run_select_keeps t w ps db cur db' :
  Engine.run (Engine.SSelect t w) ps db = inr (cur, db') -> db' = db.
Proof.
  unfold Engine.run. destruct (negb _); [done|]. unfold Engine.with_table.
  destruct (db !! t); [|done]. destruct (negb _); [done|]. by intros [= _ <-].
Qed.

Lemma parse_select_only rest s :
  Engine.parse (Engine.TWord "SELECT" :: Engine.TSym "*" :: Engine.TWord "FROM" :: rest)
  = Some s -> exists t w, s = Engine.SSelect t w.
Proof.
  cbn [Engine.parse]. intros H.
  repeat (case_match; try discriminate).
  all: injection H as <-; by eexists _, _.
Qed.

Lemma execute_select_keeps rest ps db cur db' :
  Engine.execute ("SELECT * FROM " +:+ rest) ps db = inr (cur, db') -> db' = db.
Proof.
  unfold Engine.execute, Engine.tokens. rewrite L_app.
  assert (Engine.lex [] (L "SELECT * FROM " ++ L rest)
          = Engine.TWord "SELECT" :: Engine.TSym "*" :: Engine.TWord "FROM"
            :: Engine.lex [] (L rest)) as -> by reflexivity.
  destruct (Engine.parse _) as [s|] eqn:P; [|done].
  apply parse_select_only in P as (t & w & ->). apply run_select_keeps.
Qed.

Lemma search_sql_select self fuzzy (info : dict pyval) :
  exists rest, Sync.search_sql self fuzzy info = "SELECT * FROM " +:+ rest.
Proof.
  unfold Sync.search_sql. destruct info.
  - by eexists.
  - eexists. rewrite !app_assoc_s. reflexivity.
Qed.

Lemma cursor_execute_select self fuzzy (info : dict pyval) ps w :
  disk (snd (cursor_execute (Sync.search_sql self fuzzy info) ps w)) = disk w.
Proof.
  destruct (search_sql_select self fuzzy info) as [rest ->].
  unfold cursor_execute.
  destruct (Engine.execute _ _ _) as [e|[cur db]] eqn:E; [done|].
  cbn. by apply execute_select_keeps in E.
Qed.

(** X16: the effects of [search], whatever the engine object, the filters
    and the state of the database.  When some filter key is no key of the
    field map with id, nothing happens: no connection, no statement.
    Otherwise the connection is opened (in the cooperative variant only
    when none is open) and exactly one statement is submitted, the SELECT
    with its parameters; and the tables are left as they were, whatever the
    schema's names and the table name are. *)
Theorem search_effects (self : Sync._DataBase) (aself : Async._AsyncDataBase)
  (fuzzy : bool) (info : dict pyval) (w : world) (s : Async.state) :
  (let w' := snd (Sync.search self fuzzy info w) in
   if bool_decide (dict_keys info ⊆ dict_keys (Sync._datadef_with_id self))
   then trace w' = trace w ++ [Connect (Sync._dbpath self);
                               Execute (Sync.search_sql self fuzzy info)
                                       (Sync.search_params self fuzzy info)]
        /\ disk w' = disk w
   else w' = w)
  /\ (let s' := snd (Async.search aself fuzzy info s) in
      if bool_decide (dict_keys info ⊆ dict_keys (Async._datadef_with_id aself))
      then trace (Async.outside s')
           = trace (Async.outside s) ++ opened (Async._dbpath aself) s
             ++ [Execute (Async.search_sql aself fuzzy info)
                         (Async.search_params aself fuzzy info)]
           /\ disk (Async.outside s') = disk (Async.outside s)
      else s' = s).
Proof.
  split.
  - cbv zeta. unfold Sync.search. unfold_m.
    destruct (decide (dict_keys info ⊆ dict_keys (Sync._datadef_with_id self))) as [Hs|Hs].
    + rewrite (bool_decide_eq_true_2 _ Hs).
      rewrite (proj2 (validate_part_ok info (Sync._datadef_with_id self)) Hs).
      pose proof (cursor_execute_select self fuzzy info
                    (Sync.search_params self fuzzy info)
                    (mk_world (disk w) (trace w ++ [Connect (Sync._dbpath self)]))) as Hd.
      unfold cursor_execute in *. cbn [disk trace] in *.
      destruct (Engine.execute _ _ _) as [e|[cur db]]; cbn [snd trace disk] in *.
      * by rewrite <- app_assoc.
      * by rewrite <- app_assoc.
    + rewrite (bool_decide_eq_false_2 _ Hs).
      destruct (validate_outcome info (inr (Sync._datadef_with_id self)) false)
        as [V|[msg ->]]; [|done].
      by apply validate_part_ok in V.
  - cbv zeta. unfold Async.search. unfold_m.
    change (@Async.validate_keys) with (@Sync.validate_keys).
    destruct (decide (dict_keys info ⊆ dict_keys (Async._datadef_with_id aself)))
      as [Hs|Hs].
    + rewrite (bool_decide_eq_true_2 _ Hs).
      rewrite (proj2 (validate_part_ok info (Async._datadef_with_id aself)) Hs).
      destruct s as [[c|] [d t]]; cbn [Async._conn Async.outside opened].
      * pose proof (cursor_execute_select (as_sync aself) fuzzy info
                      (Async.search_params aself fuzzy info) (mk_world d t)) as Hd.
        change (Sync.search_sql (as_sync aself) fuzzy info)
          with (Async.search_sql aself fuzzy info) in Hd.
        unfold cursor_execute in *. cbn [disk trace] in *.
        destruct (Engine.execute _ _ _) as [e|[cur db]];
          cbn [snd trace disk Async.outside] in *; done.
      * pose proof (cursor_execute_select (as_sync aself) fuzzy info
                      (Async.search_params aself fuzzy info)
                      (mk_world d (t ++ [Connect (Async._dbpath aself)]))) as Hd.
        change (Sync.search_sql (as_sync aself) fuzzy info)
          with (Async.search_sql aself fuzzy info) in Hd.
        unfold cursor_execute in *. cbn [disk trace] in *.
        destruct (Engine.execute _ _ _) as [e|[cur db]];
          cbn [snd trace disk Async.outside] in *; by rewrite <- app_assoc.
    + rewrite (bool_decide_eq_false_2 _ Hs).
      destruct (validate_outcome info (inr (Async._datadef_with_id aself)) false)
        as [V|[msg ->]]; [|done].
      by apply validate_part_ok in V.
Qed.

Lemma render_rows_eq (keys : list string) (rows : list (list pyval)) :
  Sync.render_rows keys rows
  = if forallb (fun row => (length keys <=? length row)%nat) rows
    then Ok (map (fun row => zip keys row) rows)
    else Raise IndexError.
Proof.
  induction rows as [|row rows IH]; [done|].
  cbn [Sync.render_rows forallb map]. rewrite IH.
  destruct (length keys <=? length row)%nat eqn:E.
  - apply Nat.leb_le in E. rewrite render_row_ok by (cbn; lia).
    cbn [obind andb drop]. by destruct (forallb _ rows).
  - apply Nat.leb_gt in E. rewrite render_row_fail; [done| |cbn; lia].
    intros ->. cbn in E. lia.
Qed.

Lemma dict_keys_zip_le {V} (keys : list string) (row : list V) :
  (length keys <= length row)%nat -> dict_keys (zip keys row) = keys.
Proof. intros H. unfold dict_keys. by apply fst_zip. Qed.

Lemma render_rows_keys (keys : list string) rows books :
  Sync.render_rows keys rows = Ok books ->
  Forall (fun book => dict_keys book = keys) books /\ length books = length rows.
Proof.
  rewrite render_rows_eq. destruct (forallb _ rows) eqn:E; [|done].
  intros [= <-]. split; [|by rewrite length_map].
  apply Forall_forall. intros b Hb. apply list_elem_of_fmap in Hb as (row & -> & Hrow).
  apply dict_keys_zip_le, Nat.leb_le.
  rewrite forallb_forall in E. apply E. by apply list_elem_of_In.
Qed.

(** X17: whatever the engine object, the filters and the state of the
    database, every record [search] returns has exactly the keys of the
    field map followed by [id], in this order (cells of a row beyond them
    are dropped); and when [search] raises, the error is the
    keys-validation failure, an error of the storage engine, or the
    [IndexError] of a row with fewer cells than the field map with id has
    keys. *)
Theorem search_records_keys (self : Sync._DataBase) (aself : Async._AsyncDataBase)
  (fuzzy : bool) (info : dict pyval) (w : world) (s : Async.state) :
  match fst (Sync.search self fuzzy info w) with
  | Ok books =>
      Forall (fun book => dict_keys book = dict_keys (Sync._datadef_with_id self)) books
  | Raise e => search_failure e
  end
  /\ match fst (Async.search aself fuzzy info s) with
     | Ok books =>
         Forall (fun book => dict_keys book = dict_keys (Async._datadef_with_id aself))
                books
     | Raise e => search_failure e
     end.
Proof.
  split.
  - unfold Sync.search. unfold_m.
    destruct (validate_outcome info (inr (Sync._datadef_with_id self)) false)
      as [->|[msg ->]]; [|left; by eexists].
    destruct (cursor_execute _ _ _) as [[cur|e] w1] eqn:E.
    + cbn [fst]. destruct (Sync.render_rows _ _) as [books|e] eqn:R.
      * by apply render_rows_keys in R as [R _].
      * rewrite render_rows_eq in R. destruct (forallb _ _); [done|].
        injection R as <-. by right; right.
    + cbn [fst]. unfold cursor_execute in E.
      destruct (Engine.execute _ _ _) as [se|[c d]]; [|done].
      injection E as <- _. right; left. by eexists.
  - unfold Async.search. unfold_m.
    change (Async.validate_keys info (inr (Async._datadef_with_id aself)) false)
      with (Sync.validate_keys info (inr (Async._datadef_with_id aself)) false).
    destruct (validate_outcome info (inr (Async._datadef_with_id aself)) false)
      as [->|[msg ->]]; [|left; by eexists].
    change Async.render_rows with Sync.render_rows.
    destruct s as [[c|] [d t]]; cbn [Async._conn Async.outside];
      unfold cursor_execute; cbn [disk trace];
      (destruct (Engine.execute _ _ _) as [se|[cur db]];
       [right; left; by eexists|]);
      cbn [fst];
      (destruct (Sync.render_rows _ _) as [books|e] eqn:R;
       [by apply render_rows_keys in R as [R _]|]);
      rewrite render_rows_eq in R; (destruct (forallb _ _); [done|]);
      injection R as <-; by right; right.
Qed.

(** ** The records after [add] and [delete] *)








(** ** The connection of the cooperative variant *)

Lemma connections_app l1 l2 : connections (l1 ++ l2) = connections l1 ++ connections l2.
Proof. apply List.filter_app. Qed.

Ltac step_tac :=
  match goal with
  | s : Async.state |- _ =>
      destruct s as [[c|] [d t]]; unfold call_step; unfold_m; unfold cursor_execute;
      cbn [Async._conn Async.outside disk trace];
      repeat match goal with
        | |- context [Engine.execute ?a ?b ?c] =>
            destruct (Engine.execute a b c) as [?|[? ?]]
        | |- context [Sync.render_rows ?a ?b] => destruct (Sync.render_rows a b)
        | |- context [Async.getitems ?a ?b] => destruct (Async.getitems a b)
        end;
      cbn [snd Async._conn Async.outside trace];
      rewrite ?connections_app; cbn [connections List.filter is_execute negb app];
      rewrite ?app_nil_r;
      first [ left; split; reflexivity
            | right; split; [reflexivity|split; reflexivity] ]
  end.

Lemma run_call_step aself c s :
  is_close c = false -> call_step aself s (run_call aself c s).
Proof.
  destruct c as [| | |item|id|id info|fuzzy info| |]; intros Hc; try discriminate;
    cbn [run_call].
  - unfold Async.__aenter__, Async.create_table. step_tac.
  - unfold Async.create_table. step_tac.
  - unfold Async.add.
    destruct (Async.validate_keys item (inr (Async._datadef aself)) true) as [[]|e];
      [|left; split; reflexivity].
    step_tac.
  - unfold Async.delete. step_tac.
  - unfold Async.modify. destruct info as [|kv info]; [left; split; reflexivity|].
    destruct (Async.validate_keys (kv :: info) (inr (Async._datadef aself)) false)
      as [[]|e]; [|left; split; reflexivity].
    step_tac.
  - unfold Async.search.
    destruct (Async.validate_keys info (inr (Async._datadef_with_id aself)) false)
      as [[]|e]; [|left; split; reflexivity].
    change Async.render_rows with Sync.render_rows. step_tac.
  - unfold Async.vacuum. step_tac.
Qed.

(** X20: an engine object of the cooperative variant reuses its connection.
    Over any sequence of calls ([__aenter__], [__aexit__], [create_table],
    [add], [delete], [modify], [search], [vacuum], [close]), whether they
    return or raise, every connection it opens is to its own path, and it
    opens at most one when none is open at the start, plus one after each
    [close] or [__aexit__]. *)
Theorem async_connection_reuse (aself : Async._AsyncDataBase) (cs : list call)
  (s : Async.state) :
  exists n,
    connections (trace (Async.outside (run_calls aself cs s)))
    = connections (trace (Async.outside s)) ++ replicate n (Connect (Async._dbpath aself))
    /\ (n <= may_open s cs)%nat.
Proof.
  revert s. induction cs as [|c cs IH]; intros s.
  - exists 0%nat. cbn. rewrite app_nil_r. split; [done|lia].
  - cbn [run_calls fold_left]. fold (run_calls aself cs (run_call aself c s)).
    destruct (IH (run_call aself c s)) as (n & Hn & Hle).
    destruct (is_close c) eqn:Hc.
    + exists n. unfold may_open in *. cbn [List.filter]. rewrite Hc.
      destruct c; try discriminate;
        cbn [run_call Async.__aexit__ Async.close snd Async._conn Async.outside length]
          in *;
        (split; [done|lia]).
    + destruct (run_call_step aself c s Hc) as [[H1 H2]|(H1 & H2 & H3)].
      * exists n. rewrite Hn, H2. split; [done|].
        unfold may_open in *. cbn [List.filter]. rewrite Hc. rewrite H1 in Hle. lia.
      * exists (S n). rewrite Hn, H3, <- app_assoc. split; [done|].
        unfold may_open in *. cbn [List.filter]. rewrite Hc. rewrite H1.
        rewrite H2 in Hle. lia.
Qed.

(** ** The two variants, call by call *)




(** ** custom_decorators.py: [decorate] and [compress] *)

Lemma then_unit_r {S E A} (m : Decorators.run S E A) s :
  Decorators.then_ m Decorators.unit_ s = m s.
Proof. unfold Decorators.then_, Decorators.unit_. by destruct (m s) as [[a|e] s']. Qed.

Lemma decorate_app {S E F} (func : F) (ds1 ds2 : list (F -> Decorators.run S E F)) s :
  Decorators.decorate func (ds1 ++ ds2) s
  = Decorators.then_ (Decorators.decorate func ds1)
      (fun f => Decorators.decorate f ds2) s.
Proof.
  revert func s. induction ds1 as [|d ds1 IH]; intros func s; [done|].
  cbn [app Decorators.decorate]. unfold Decorators.then_.
  destruct (d func s) as [[f|e] s']; [|done]. by rewrite IH.
Qed.

Lemma compress_decorate {S E F} (decos : list (F -> Decorators.run S E F)) (func : F) s :
  Decorators.compress decos func s = Decorators.decorate func (rev decos) s.
Proof.
  unfold Decorators.compress. generalize (rev decos). intros ds. revert func s.
  induction ds as [|d ds IH]; intros func s; [done|].
  cbn [Decorators.decorate]. unfold Decorators.then_.
  destruct (d func s) as [[f|e] s']; [apply IH|done].
Qed.

(** X22: [compress(d1, ..., dn)] decorates as the stack of lines [@d1] ...
    [@dn] above a definition does: [dn] is applied first and [d1] last, each
    to the result of the one before, and a decorator that raises stops the
    rest; [decorate(func, d1, ..., dn)] applies them the other way round,
    [d1] first. *)
Theorem compress_stacks {S E F} (decos : list (F -> Decorators.run S E F)) (func : F)
  (s : S) :
  Decorators.compress decos func s = stacked decos func s
  /\ Decorators.decorate func decos s = stacked (rev decos) func s.
Proof.
  assert (forall (ds : list (F -> Decorators.run S E F)) (f : F) (s0 : S),
            Decorators.decorate f (rev ds) s0 = stacked ds f s0) as H.
  { induction ds as [|d ds IH]; intros f s0; [done|].
    cbn [rev stacked]. rewrite decorate_app. unfold Decorators.then_.
    rewrite IH. destruct (stacked ds f s0) as [[g|e] s1]; [|done].
    cbn [Decorators.decorate]. apply then_unit_r. }
  split.
  - rewrite compress_decorate. apply H.
  - rewrite <- H. by rewrite rev_involutive.
Qed.

(** ** custom_decorators.py: the fallback wrapper *)

Section FallbackerFacts.

Context {S E Args R cls : Type}.
Variable isinstance : Decorators.exc E -> cls -> bool.
Variable logging_warning : Decorators.exc E -> S -> S.

Lemma registered_funcs (Exception_ : cls) tol (func : Args -> Decorators.run S E R)
  funcs :
  let self := registered Exception_ tol func funcs in
  Decorators.Fallbacker._fallback_funcs self = funcs
  /\ Decorators.Fallbacker._func self = func
  /\ Decorators.Fallbacker._tol_excs self
     = Decorators.Fallbacker._tol_excs (Decorators.fallback Exception_ tol func).
Proof.
  unfold registered.
  assert (forall (o : @Decorators.Fallbacker.t S E Args R cls),
    let self :=
      fold_left (fun self f => fst (Decorators.Fallbacker.register self f)) funcs o in
    Decorators.Fallbacker._fallback_funcs self
    = Decorators.Fallbacker._fallback_funcs o ++ funcs
    /\ Decorators.Fallbacker._func self = Decorators.Fallbacker._func o
    /\ Decorators.Fallbacker._tol_excs self = Decorators.Fallbacker._tol_excs o) as H.
  { induction funcs as [|f funcs IH]; intros o.
    - cbn. by rewrite app_nil_r.
    - cbn [fold_left].
      destruct (IH (fst (Decorators.Fallbacker.register o f))) as (H1 & H2 & H3).
      cbv zeta. rewrite H1, H2, H3. cbn. by rewrite <- app_assoc. }
  apply H.
Qed.

Lemma fallback_loop_settles (self : Decorators.Fallbacker.t) (args : Args)
  (funcs : list (Args -> Decorators.run S E R)) (s : S) :
  (exists s',
      all_tolerated isinstance logging_warning self args funcs s s'
      /\ Decorators.Fallbacker.fallback_loop isinstance logging_warning self funcs args s
         = (Decorators.Throw (Decorators.FallbackFailure "No more func to fallback"), s'))
  \/ (exists pre func post s1 r s2,
         funcs = pre ++ func :: post
         /\ all_tolerated isinstance logging_warning self args pre s s1
         /\ func args s1 = (r, s2)
         /\ (forall e, r = Decorators.Throw e ->
                       Decorators.Fallbacker.tolerated isinstance self e = false)
         /\ Decorators.Fallbacker.fallback_loop isinstance logging_warning self funcs
              args s
            = (r, s2)).
Proof.
  revert s. induction funcs as [|f funcs IH]; intros s.
  - left. exists s. split; [constructor|done].
  - cbn [Decorators.Fallbacker.fallback_loop].
    destruct (f args s) as [[r|e] s1] eqn:Ef.
    + right. exists [], f, funcs, s, (Decorators.Return r), s1.
      split; [done|]. split; [constructor|]. split; [done|]. split; [done|done].
    + destruct (Decorators.Fallbacker.tolerated isinstance self e) eqn:Et.
      * destruct (IH (logging_warning e s1))
          as [(s' & H1 & H2)|(pre & g & post & s2 & r & s3 & H1 & H2 & H3 & H4 & H5)].
        -- left. exists s'. split; [by econstructor|done].
        -- right. exists (f :: pre), g, post, s2, r, s3. subst funcs.
           split; [done|]. split; [by econstructor|]. done.
      * right. exists [], f, funcs, s, (Decorators.Throw e), s1.
        split; [done|]. split; [constructor|]. split; [done|].
        split; [by intros e' [= <-]|done].
Qed.

End FallbackerFacts.

(** X23: a call of a function decorated with [fallback] is the call of the
    function itself, with its result, its exception and its effects, when
    no fallback is registered, or when the function returns or raises an
    exception that is not tolerated: no fallback is called then. *)
Theorem fallback_transparent {S E Args R cls : Type}
  (isinstance : Decorators.exc E -> cls -> bool)
  (logging_warning : Decorators.exc E -> S -> S) (Exception_ : cls)
  (tol : option (list cls)) (func : Args -> Decorators.run S E R)
  (funcs : list (Args -> Decorators.run S E R)) (args : Args) (s : S) :
  let self := registered Exception_ tol func funcs in
  funcs = []
  \/ (forall e, fst (func args s) = Decorators.Throw e ->
                Decorators.Fallbacker.tolerated isinstance self e = false) ->
  Decorators.Fallbacker.__call__ isinstance logging_warning self args s = func args s.
Proof.
  intros self H.
  destruct (registered_funcs Exception_ tol func funcs) as (H1 & H2 & _).
  fold self in H1, H2. unfold Decorators.Fallbacker.__call__. rewrite H2, H1.
  destruct (func args s) as [[r|e] s'] eqn:Ef; [done|].
  destruct H as [->|H].
  - by destruct (Decorators.Fallbacker.tolerated isinstance self e).
  - by rewrite (H e eq_refl).
Qed.

Lemma fallback_transparent_witness :
  Decorators.Fallbacker.__call__ demo_isinstance demo_warning
    (registered tt None demo_primary []) tt 0%nat
  = demo_primary tt 0%nat.
Proof.
  apply (fallback_transparent demo_isinstance demo_warning tt None demo_primary []
           tt 0%nat).
  by left.
Defined.

(** X24: when the decorated function raises a tolerated exception and
    fallbacks are registered, they are called in the order of their
    registration, each with the same arguments, from the state the one
    before has left and after a warning for its exception; the call ends
    with the first fallback that returns or raises an exception that is not
    tolerated, with its result or that exception, and the fallbacks after it
    are not called; when every fallback raises a tolerated exception the
    call raises [FallbackFailure]. *)
Theorem fallback_settles {S E Args R cls : Type}
  (isinstance : Decorators.exc E -> cls -> bool)
  (logging_warning : Decorators.exc E -> S -> S) (Exception_ : cls)
  (tol : option (list cls)) (func : Args -> Decorators.run S E R)
  (funcs : list (Args -> Decorators.run S E R)) (args : Args)
  (s s0 : S) (e0 : Decorators.exc E) :
  let self := registered Exception_ tol func funcs in
  let call := Decorators.Fallbacker.__call__ isinstance logging_warning self in
  func args s = (Decorators.Throw e0, s0) ->
  Decorators.Fallbacker.tolerated isinstance self e0 = true ->
  funcs <> [] ->
  (exists s',
      all_tolerated isinstance logging_warning self args funcs s0 s'
      /\ call args s
         = (Decorators.Throw (Decorators.FallbackFailure "No more func to fallback"), s'))
  \/ (exists pre f post s1 r s2,
         funcs = pre ++ f :: post
         /\ all_tolerated isinstance logging_warning self args pre s0 s1
         /\ f args s1 = (r, s2)
         /\ (forall e, r = Decorators.Throw e ->
                       Decorators.Fallbacker.tolerated isinstance self e = false)
         /\ call args s = (r, s2)).
Proof.
  intros self call Hf Ht Hne.
  destruct (registered_funcs Exception_ tol func funcs) as (H1 & H2 & _).
  fold self in H1, H2.
  assert (call args s
          = Decorators.Fallbacker.fallback_loop isinstance logging_warning self funcs
              args s0) as ->.
  { unfold call, Decorators.Fallbacker.__call__, Decorators.Fallbacker._do_fallback.
    rewrite H2, Hf, Ht, H1. by destruct funcs. }
  apply fallback_loop_settles.
Qed.

Lemma fallback_settles_witness :
  let self := registered tt None demo_primary [demo_failing; demo_working; demo_failing] in
  let call := Decorators.Fallbacker.__call__ demo_isinstance demo_warning self in
  (exists s',
      all_tolerated demo_isinstance demo_warning self tt
        [demo_failing; demo_working; demo_failing] 0%nat s'
      /\ call tt 0%nat
         = (Decorators.Throw (Decorators.FallbackFailure "No more func to fallback"), s'))
  \/ (exists pre f post s1 r s2,
         [demo_failing; demo_working; demo_failing] = pre ++ f :: post
         /\ all_tolerated demo_isinstance demo_warning self tt pre 0%nat s1
         /\ f tt s1 = (r, s2)
         /\ (forall e, r = Decorators.Throw e ->
                       Decorators.Fallbacker.tolerated demo_isinstance self e = false)
         /\ call tt 0%nat = (r, s2)).
Proof.
  apply (fallback_settles demo_isinstance demo_warning tt None demo_primary
           [demo_failing; demo_working; demo_failing] tt 0%nat 0%nat
           (Decorators.Other 1%nat) eq_refl eq_refl).
  done.
Defined.

(** X25: with a fallback registered, an exception that leaves the call of
    the decorated function is never a tolerated one, unless it is the
    [FallbackFailure] raised when no fallback is left. *)
Theorem fallback_escapes {S E Args R cls : Type}
  (isinstance : Decorators.exc E -> cls -> bool)
  (logging_warning : Decorators.exc E -> S -> S) (Exception_ : cls)
  (tol : option (list cls)) (func : Args -> Decorators.run S E R)
  (funcs : list (Args -> Decorators.run S E R)) (args : Args)
  (s s' : S) (e : Decorators.exc E) :
  let self := registered Exception_ tol func funcs in
  funcs <> [] ->
  Decorators.Fallbacker.__call__ isinstance logging_warning self args s
  = (Decorators.Throw e, s') ->
  Decorators.Fallbacker.tolerated isinstance self e = false
  \/ e = Decorators.FallbackFailure "No more func to fallback".
Proof.
  intros self Hne Hc.
  destruct (registered_funcs Exception_ tol func funcs) as (H1 & H2 & _).
  fold self in H1, H2.
  unfold Decorators.Fallbacker.__call__, Decorators.Fallbacker._do_fallback in Hc.
  rewrite H2, H1 in Hc.
  destruct (func args s) as [[r|e0] s0] eqn:Ef; [done|].
  destruct (Decorators.Fallbacker.tolerated isinstance self e0) eqn:Et.
  - assert (Decorators.Fallbacker.fallback_loop isinstance logging_warning self funcs
              args s0 = (Decorators.Throw e, s')) as Hl by (by destruct funcs).
    destruct (fallback_loop_settles isinstance logging_warning self args funcs s0)
      as [(s1 & _ & H)|(pre & f & post & s1 & r & s2 & _ & _ & _ & H4 & H)];
      rewrite H in Hl.
    + injection Hl as <- _. by right.
    + injection Hl as -> _. left. by apply H4.
  - injection Hc as <- _. by left.
Qed.

Lemma fallback_escapes_witness :
  Decorators.Fallbacker.tolerated demo_isinstance
    (registered tt None demo_primary [demo_failing])
    (Decorators.FallbackFailure "No more func to fallback")
  = false
  \/ Decorators.FallbackFailure "No more func to fallback"
     = (Decorators.FallbackFailure "No more func to fallback" : Decorators.exc nat).
Proof.
  apply (fallback_escapes demo_isinstance demo_warning tt None demo_primary
           [demo_failing] tt 0%nat 1%nat); [done|reflexivity].
Defined.

(** ** custom_decorators.py: the cache *)

(** X26: the cache is not keyed by the arguments.  When a call on an empty
    cache returns a value other than [None], the value is stored with the
    time read after the call; a later call within [expire] of that time
    returns the stored value whatever its arguments are, without calling
    the function: it only reads the clock. *)
Theorem cache_hit_ignores_arguments {S E Args R : Type} (time_time : S -> float * S)
  (self : @Decorators.CacheWrapper.t S E Args R) (a b : Args) (s s1 s2 s3 : S) (v : R)
  (t1 t2 : float) :
  Decorators.CacheWrapper._cache self = None ->
  Decorators.CacheWrapper._func self a s = (Decorators.Return (Some v), s1) ->
  time_time s1 = (t1, s2) ->
  time_time s2 = (t2, s3) ->
  PrimFloat.leb (Decorators.CacheWrapper._expire self) (PrimFloat.sub t2 t1) = false ->
  let self' := Decorators.CacheWrapper.mk (Decorators.CacheWrapper._func self)
                 (Decorators.CacheWrapper._expire self) t1 (Some v) in
  Decorators.CacheWrapper.__call__ time_time self a s
  = (Decorators.Return (Some v), (self', s2))
  /\ Decorators.CacheWrapper.__call__ time_time self' b s2
     = (Decorators.Return (Some v), (self', s3)).
Proof.
  intros Hc Hf H1 H2 Hx self'. split.
  - unfold Decorators.CacheWrapper.__call__, Decorators.CacheWrapper.stale.
    by rewrite Hc, Hf, H1.
  - unfold Decorators.CacheWrapper.__call__, Decorators.CacheWrapper.stale.
    cbn [Decorators.CacheWrapper._cache Decorators.CacheWrapper._last_call
         Decorators.CacheWrapper._expire self'].
    by rewrite H2, Hx.
Qed.

Lemma cache_hit_ignores_arguments_witness :
  let self := Decorators.cache 60%float demo_double in
  let self' := Decorators.CacheWrapper.mk demo_double 60%float 10%float (Some 6%nat) in
  Decorators.CacheWrapper.__call__ demo_clock self 3%nat 10%float
  = (Decorators.Return (Some 6%nat), (self', 11%float))
  /\ Decorators.CacheWrapper.__call__ demo_clock self' 5%nat 11%float
     = (Decorators.Return (Some 6%nat), (self', 12%float)).
Proof.
  apply (cache_hit_ignores_arguments demo_clock (Decorators.cache 60%float demo_double)
           3%nat 5%nat 10%float 10%float 11%float 12%float 6%nat 10%float 11%float);
    reflexivity.
Defined.

(** X27: what a call that reaches the wrapped function leaves in the cache.
    When the function raises, the exception leaves the call and the cache
    is as before: a failed refresh keeps the old entry and its time.  When
    it returns [None], nothing is cached: every later call reaches the
    function again, whatever the clock says.  When it returns another
    value, the value is cached with the time read after the call. *)
Theorem cache_keeps_no_failure {S E Args R : Type} (time_time : S -> float * S)
  (self : @Decorators.CacheWrapper.t S E Args R) (a : Args) (s : S) :
  fst (Decorators.CacheWrapper.stale time_time self s) = true ->
  let s1 := snd (Decorators.CacheWrapper.stale time_time self s) in
  match Decorators.CacheWrapper._func self a s1 with
  | (Decorators.Throw e, s2) =>
      Decorators.CacheWrapper.__call__ time_time self a s
      = (Decorators.Throw e, (self, s2))
  | (Decorators.Return None, s2) =>
      exists self',
        Decorators.CacheWrapper.__call__ time_time self a s
        = (Decorators.Return None, (self', snd (time_time s2)))
        /\ forall s', Decorators.CacheWrapper.stale time_time self' s' = (true, s')
  | (Decorators.Return (Some v), s2) =>
      exists self',
        Decorators.CacheWrapper.__call__ time_time self a s
        = (Decorators.Return (Some v), (self', snd (time_time s2)))
        /\ Decorators.CacheWrapper._cache self' = Some v
        /\ Decorators.CacheWrapper._last_call self' = fst (time_time s2)
  end.
Proof.
  intros Hs s1. unfold Decorators.CacheWrapper.__call__. subst s1.
  destruct (Decorators.CacheWrapper.stale time_time self s) as [r s1].
  cbn [fst snd] in *. subst r.
  destruct (Decorators.CacheWrapper._func self a s1) as [[[v|]|e] s2]; [| |done].
  - destruct (time_time s2) as [now s3]. eexists. split; [reflexivity|]. done.
  - destruct (time_time s2) as [now s3]. eexists. split; [reflexivity|]. done.
Qed.

Lemma cache_keeps_no_failure_witness :
  exists self',
    Decorators.CacheWrapper.__call__ demo_clock (Decorators.cache 60%float demo_nothing)
      3%nat 10%float
    = (Decorators.Return None, (self', 11%float))
    /\ forall s', Decorators.CacheWrapper.stale demo_clock self' s' = (true, s').
Proof.
  apply (cache_keeps_no_failure demo_clock (Decorators.cache 60%float demo_nothing)
           3%nat 10%float eq_refl).
Defined.
